(** * Safe Key Recorder: a shallow embedding of [safe_keyrecorder.py]

    The application is a single Tk window driven by callbacks.  Every
    callback of [SafeKeyRecorder] is embedded as a computation in a small
    monad that threads the session (the object [self] and the files it can
    reach), may raise a Python exception, and logs the dialogs it shows.

    What the toolkit and the operating system decide is made explicit:
    the clock read by [datetime.utcnow()] and the answers given in dialogs
    are arguments of the callback, and an I/O fault is a counter of the
    session that every file operation consults. *)

From Stdlib Require Import Ascii.
From stdpp Require Import base option strings list gmap pretty.

(** ** Python strings *)

Module Py.

(** The one-character strings written ["\n"] and ["\t"] in Python.  In a
    Rocq literal a backslash is an ordinary character, so the Python
    literal ["\\n"] (backslash, n) is written ["\n"] here. *)
Definition newline : ascii := Ascii.ascii_of_nat 10.
Definition NL : string := String newline EmptyString.
Definition TAB : string := String (Ascii.ascii_of_nat 9) EmptyString.
Definition BACKSLASH_N : string := "\n".

(** [str.replace(old, new)]: left to right, non-overlapping.  [skip]
    counts the characters of a match that remain to be dropped. *)
Fixpoint replace_go (old new : string) (skip : nat) (s : string) : string :=
  match s with
  | EmptyString => EmptyString
  | String c s' =>
      match skip with
      | S k => replace_go old new k s'
      | O =>
          if String.prefix old s
          then new +:+ replace_go old new (String.length old - 1) s'
          else String c (replace_go old new 0 s')
      end
  end.

(** With an empty [old] Python puts [new] around every character. *)
Fixpoint replace_empty (new s : string) : string :=
  match s with
  | EmptyString => new
  | String c s' => new +:+ String c (replace_empty new s')
  end.

Definition replace (old new s : string) : string :=
  match old with
  | EmptyString => replace_empty new s
  | _ => replace_go old new 0 s
  end.

(** Truthiness of a string and of a list. *)
Definition truthy_str (s : string) : bool :=
  match s with EmptyString => false | _ => true end.

Definition truthy_list {A} (l : list A) : bool :=
  match l with [] => false | _ => true end.

(** [os.path.basename] (posixpath): what follows the last slash. *)
Fixpoint basename_go (s acc : string) : string :=
  match s with
  | EmptyString => acc
  | String c s' =>
      if Ascii.eqb c "/"%char then basename_go s' EmptyString
      else basename_go s' (acc +:+ String c EmptyString)
  end.

Definition basename (p : string) : string := basename_go p EmptyString.

(** [str(n)] for a length. *)
Definition str_of_nat (n : nat) : string := pretty n.

(** The carriage return, the two quotes and the backslash.  A [string]
    stands for a Python [str] whose characters have code points below
    256. *)
Definition CR_char : ascii := Ascii.ascii_of_nat 13.
Definition CR : string := String CR_char EmptyString.
Definition squote : ascii := Ascii.ascii_of_nat 39.
Definition dquote : ascii := Ascii.ascii_of_nat 34.
Definition backslash : ascii := Ascii.ascii_of_nat 92.

(** [c in s] for a character. *)
Fixpoint mem_char (c : ascii) (s : string) : bool :=
  match s with
  | EmptyString => false
  | String d s' => Ascii.eqb c d || mem_char c s'
  end.

(** [str.isprintable] of one character: the space and the visible ASCII
    characters, and the visible Latin-1 characters (not the no-break
    space, not the soft hyphen). *)
Definition isprintable_char (c : ascii) : bool :=
  let n := Ascii.nat_of_ascii c in
  (Nat.leb 32 n && Nat.ltb n 127)
  || (Nat.leb 161 n && negb (Nat.eqb n 173)).

(** Some character of the string is printable. *)
Fixpoint has_printable (s : string) : bool :=
  match s with
  | EmptyString => false
  | String c s' => isprintable_char c || has_printable s'
  end.

Definition hex_digit (n : nat) : ascii :=
  match String.get n "0123456789abcdef" with
  | Some c => c
  | None => "0"%char
  end.

(** [repr] of a [str]: single quotes unless the string has a single
    quote and no double quote; the quote in use and the backslash are
    escaped, tab, newline and carriage return are written with their
    letters, and any other character that is not printable is written
    in hexadecimal. *)
Definition repr_char (quote c : ascii) : string :=
  if Ascii.eqb c quote || Ascii.eqb c backslash then String backslash (String c EmptyString)
  else if Ascii.eqb c (Ascii.ascii_of_nat 9) then "\t"
  else if Ascii.eqb c newline then "\n"
  else if Ascii.eqb c CR_char then "\r"
  else if isprintable_char c then String c EmptyString
  else "\x" +:+ String (hex_digit (Ascii.nat_of_ascii c / 16))
                  (String (hex_digit (Ascii.nat_of_ascii c mod 16)) EmptyString).

Fixpoint repr_body (quote : ascii) (s : string) : string :=
  match s with
  | EmptyString => EmptyString
  | String c s' => repr_char quote c +:+ repr_body quote s'
  end.

Definition repr (s : string) : string :=
  let quote := if mem_char squote s && negb (mem_char dquote s) then dquote else squote in
  String quote (repr_body quote s +:+ String quote EmptyString).

(** [str(e)] of the [FileNotFoundError] that [open] raises. *)
Definition file_not_found (path : string) : string :=
  "[Errno 2] No such file or directory: " +:+ repr path.

(** What reading in text mode makes of the line ends (universal
    newlines): carriage return and newline together, and a carriage
    return alone, both become a newline. *)
Fixpoint universal_newlines (s : string) : string :=
  match s with
  | EmptyString => EmptyString
  | String c s' =>
      if Ascii.eqb c CR_char then
        match s' with
        | String d s'' =>
            if Ascii.eqb d newline then String newline (universal_newlines s'')
            else String newline (universal_newlines s')
        | EmptyString => String newline EmptyString
        end
      else String c (universal_newlines s')
  end.

End Py.

(** ** Tk widgets, as far as the program drives them *)

Inductive widget_state := normal | disabled.

#[global] Instance widget_state_eq_dec : EqDecision widget_state.
Proof. solve_decision. Defined.

(** A [tk.Text]: its content up to ["end-1c"] (Tk always keeps one final
    newline after it, which is not part of the content) and its state. *)
Record Text := mkText { content : string; text_state : widget_state }.

(** A [tk.Label]. *)
Record Label := mkLabel { text : string; fg : string }.

Module Tk.

(** [Text.config(state=...)] *)
Definition text_config (st : widget_state) (w : Text) : Text :=
  mkText (content w) st.

(** [Text.insert("end", s)]: a disabled Text ignores insertions. *)
Definition insert_end (s : string) (w : Text) : Text :=
  match text_state w with
  | disabled => w
  | normal => mkText (content w +:+ s) normal
  end.

(** [Text.delete("1.0", "end")]: a disabled Text ignores deletions. *)
Definition delete_all (w : Text) : Text :=
  match text_state w with
  | disabled => w
  | normal => mkText EmptyString normal
  end.

(** [Text.compare("end-1c", "==", "1.0")]: the widget holds no text. *)
Definition is_blank (w : Text) : bool :=
  negb (Py.truthy_str (content w)).

End Tk.

(** ** The session *)

(** An Event Record: [(timestamp, keysym, char_repr)]. *)
Definition EventRecord : Type := string * string * string.

(** The Tk event handed to the [<KeyPress>] binding. *)
Record KeyEvent := mkKeyEvent { keysym : string; char : string }.

(** The attributes of [self] that the callbacks read or write.  [alive]
    is [false] once [root.destroy()] has run.  The editable input area
    [text_widget] is never read by the program and is left out. *)
Record SafeKeyRecorder := mkApp {
  recording : bool;
  events : list EventRecord;
  start_btn : widget_state;
  stop_btn : widget_state;
  status_label : Label;
  log_display : Text;
  alive : bool
}.

(** The session and its surroundings.  [fault = Some (n, e)] says that
    the [n]-th file operation from now (counting from 0) raises an
    exception whose text is [e]. *)
Record World := mkWorld {
  self : SafeKeyRecorder;
  files : gmap string string;
  fault : option (nat * string)
}.

(** What the user is shown. *)
Inductive Effect :=
| ShowInfo (title message : string)
| ShowError (title message : string)
| AskYesNo (title message : string) (answer : bool)
| AskSaveAsFilename (defaultextension initialfile title answer : string)
| AskOpenFilename (title answer : string)
| Toplevel (title body : string).

#[global] Instance Effect_eq_dec : EqDecision Effect.
Proof. solve_decision. Defined.

(** ** The monad of callbacks *)

Inductive Result (A : Type) :=
| Ok (a : A)
| Raised (e : string).
Arguments Ok {A} a.
Arguments Raised {A} e.

Definition M (A : Type) : Type := World → Result A * World * list Effect.

#[global] Instance M_ret : MRet M := λ A a w, (Ok a, w, []).

#[global] Instance M_bind : MBind M := λ A B f m w,
  match m w with
  | (Ok a, w1, t1) => let '(r, w2, t2) := f a w1 in (r, w2, t1 ++ t2)
  | (Raised e, w1, t1) => (Raised e, w1, t1)
  end.

#[global] Instance M_throw : MThrow string M := λ A e w, (Raised e, w, []).

(** [try: body except Exception as e: handler(e)] *)
Definition try_except {A} (body : M A) (handler : string → M A) : M A := λ w,
  match body w with
  | (Ok a, w1, t1) => (Ok a, w1, t1)
  | (Raised e, w1, t1) => let '(r, w2, t2) := handler e w1 in (r, w2, t1 ++ t2)
  end.

Definition get_self : M SafeKeyRecorder := λ w, (Ok (self w), w, []).

Definition modify_self (f : SafeKeyRecorder → SafeKeyRecorder) : M unit :=
  λ w, (Ok tt, mkWorld (f (self w)) (files w) (fault w), []).

Definition emit (x : Effect) : M unit := λ w, (Ok tt, w, [x]).

(** Projections of a run. *)
Definition result_of {A} (x : Result A * World * list Effect) : Result A := x.1.1.
Definition world_of {A} (x : Result A * World * list Effect) : World := x.1.2.
Definition trace_of {A} (x : Result A * World * list Effect) : list Effect := x.2.

(** Attribute assignments [self.x = v] and widget calls on [self.x]. *)
Definition set_recording (b : bool) (s : SafeKeyRecorder) : SafeKeyRecorder :=
  mkApp b (events s) (start_btn s) (stop_btn s) (status_label s) (log_display s) (alive s).

Definition set_events (l : list EventRecord) (s : SafeKeyRecorder) : SafeKeyRecorder :=
  mkApp (recording s) l (start_btn s) (stop_btn s) (status_label s) (log_display s) (alive s).

Definition start_btn_config (st : widget_state) (s : SafeKeyRecorder) : SafeKeyRecorder :=
  mkApp (recording s) (events s) st (stop_btn s) (status_label s) (log_display s) (alive s).

Definition stop_btn_config (st : widget_state) (s : SafeKeyRecorder) : SafeKeyRecorder :=
  mkApp (recording s) (events s) (start_btn s) st (status_label s) (log_display s) (alive s).

Definition status_label_config (txt colour : string) (s : SafeKeyRecorder) : SafeKeyRecorder :=
  mkApp (recording s) (events s) (start_btn s) (stop_btn s) (mkLabel txt colour) (log_display s) (alive s).

Definition on_log_display (f : Text → Text) (s : SafeKeyRecorder) : SafeKeyRecorder :=
  mkApp (recording s) (events s) (start_btn s) (stop_btn s) (status_label s) (f (log_display s)) (alive s).

Definition root_destroy (s : SafeKeyRecorder) : SafeKeyRecorder :=
  mkApp (recording s) (events s) (start_btn s) (stop_btn s) (status_label s) (log_display s) false.

(** ** [tkinter.messagebox] and [tkinter.filedialog]

    The answer the user gives is an argument; the dialog is logged with
    it.  The [filetypes] filter of the file dialogs is not recorded. *)
Definition showinfo (title message : string) : M unit := emit (ShowInfo title message).
Definition showerror (title message : string) : M unit := emit (ShowError title message).

Definition askyesno (title message : string) (answer : bool) : M bool :=
  emit (AskYesNo title message answer);; mret answer.

Definition DEFAULT_LOGFILE : string := "key_events_log.txt".

Definition asksaveasfilename (defaultextension initialfile title answer : string) : M string :=
  emit (AskSaveAsFilename defaultextension initialfile title answer);; mret answer.

Definition askopenfilename (title answer : string) : M string :=
  emit (AskOpenFilename title answer);; mret answer.

(** ** [SafeKeyRecorder] *)

(** [__init__] *)
Definition init : SafeKeyRecorder :=
  {| recording := false;
     events := [];
     start_btn := normal;
     stop_btn := disabled;
     status_label := mkLabel "Recording: No" "red";
     log_display := mkText EmptyString disabled;
     alive := true |}.

(** [_append_to_display]; [see("end")] only scrolls. *)
Definition _append_to_display (txt : string) : M unit :=
  modify_self (on_log_display (Tk.text_config normal));;
  modify_self (on_log_display (Tk.insert_end (txt +:+ Py.NL)));;
  modify_self (on_log_display (Tk.text_config disabled)).

(** [_append_message]; [now] is [datetime.utcnow().isoformat()]. *)
Definition _append_message (now msg : string) : M unit :=
  _append_to_display ("[INFO] " +:+ now +:+ "Z | " +:+ msg).

(** [start_recording] *)
Definition start_recording (now : string) : M unit :=
  s ← get_self;
  if recording s then mret tt
  else
    modify_self (set_recording true);;
    modify_self (start_btn_config disabled);;
    modify_self (stop_btn_config normal);;
    modify_self (status_label_config "Recording: Yes" "green");;
    _append_message now "Recording started. Click inside input area and type...".

(** [stop_recording] *)
Definition stop_recording (now : string) : M unit :=
  s ← get_self;
  if negb (recording s) then mret tt
  else
    modify_self (set_recording false);;
    modify_self (start_btn_config normal);;
    modify_self (stop_btn_config disabled);;
    modify_self (status_label_config "Recording: No" "red");;
    _append_message now "Recording stopped.".

(** The normalisation of [event.char] in [on_key_press]. *)
Definition char_repr_of (ch : string) : string :=
  if String.eqb ch EmptyString then "<non-printable>"
  else Py.replace Py.NL Py.BACKSLASH_N ch.

(** [on_key_press] *)
Definition on_key_press (now : string) (event : KeyEvent) : M unit :=
  s ← get_self;
  if negb (recording s) then mret tt
  else
    let timestamp := now +:+ "Z" in
    let keysym := keysym event in
    let char := char event in
    let char_repr := char_repr_of char in
    modify_self (λ s, set_events (events s ++ [(timestamp, keysym, char_repr)]) s);;
    _append_to_display (timestamp +:+ " | " +:+ keysym +:+ " | " +:+ char_repr).

(** ** Files

    Every file operation first consults the fault counter. *)
Definition file_op : M unit := λ w,
  match fault w with
  | None => (Ok tt, w, [])
  | Some (S n, e) => (Ok tt, mkWorld (self w) (files w) (Some (n, e)), [])
  | Some (O, e) => (Raised e, mkWorld (self w) (files w) None, [])
  end.

Definition modify_files (f : gmap string string → gmap string string) : M unit :=
  λ w, (Ok tt, mkWorld (self w) (f (files w)) (fault w), []).

Definition get_files : M (gmap string string) := λ w, (Ok (files w), w, []).

(** What a path holds; a path that names no file holds nothing. *)
Definition file_text (fs : gmap string string) (path : string) : string :=
  default EmptyString (fs !! path).

(** A file created when missing, and otherwise left as it is. *)
Definition touch (path : string) (fs : gmap string string) : gmap string string :=
  <[path := file_text fs path]> fs.

(** A file with [data] added at its end. *)
Definition append_to (path data : string) (fs : gmap string string) : gmap string string :=
  <[path := file_text fs path +:+ data]> fs.

(** [open(path, "a")]: the file is created when missing and is never
    truncated.  The handle is the path. *)
Definition open_append (path : string) : M string :=
  file_op;;
  modify_files (touch path);;
  mret path.

(** [f.write(data)] on a handle opened for appending. *)
Definition f_write (f data : string) : M unit :=
  file_op;;
  modify_files (append_to f data).

(** [open(path, "r", encoding="utf-8")]; a path that names no file
    raises [FileNotFoundError]. *)
Definition open_read (path : string) : M string :=
  file_op;;
  fs ← get_files;
  match fs !! path with
  | Some _ => mret path
  | None => mthrow (Py.file_not_found path)
  end.

(** [f.read()] on a file opened for reading as text: the line ends
    are translated.  Text that cannot be decoded is a failing file
    operation. *)
Definition f_read (f : string) : M string :=
  file_op;;
  fs ← get_files;
  mret (Py.universal_newlines (file_text fs f)).

Definition f_close (f : string) : M unit := file_op.

(** [try: body finally: fin]; an exception raised by [fin] replaces the
    pending one. *)
Definition try_finally {A} (body : M A) (fin : M unit) : M A := λ w,
  match body w with
  | (Ok a, w1, t1) =>
      match fin w1 with
      | (Ok _, w2, t2) => (Ok a, w2, t1 ++ t2)
      | (Raised e, w2, t2) => (Raised e, w2, t1 ++ t2)
      end
  | (Raised e, w1, t1) =>
      match fin w1 with
      | (Ok _, w2, t2) => (Raised e, w2, t1 ++ t2)
      | (Raised e', w2, t2) => (Raised e', w2, t1 ++ t2)
      end
  end.

(** [with opened as f: body]: the file is closed however the body ends. *)
Definition with_file {A} (opened : M string) (body : string → M A) : M A :=
  f ← opened;
  try_finally (body f) (f_close f).

(** [for x in l: body(x)] *)
Fixpoint for_each {A} (l : list A) (body : A → M unit) : M unit :=
  match l with
  | [] => mret tt
  | x :: l' => body x;; for_each l' body
  end.

(** The line [save_log] writes for one Event Record. *)
Definition record_line (r : EventRecord) : string :=
  let '(ts, keysym, ch) := r in
  ts +:+ Py.TAB +:+ keysym +:+ Py.TAB +:+ ch +:+ Py.NL.

(** [save_log]; [answer] is what the file dialog returns (empty when the
    user cancels), [now1] and [now2] the two readings of the clock. *)
Definition save_log (answer now1 now2 : string) : M unit :=
  s ← get_self;
  if negb (Py.truthy_list (events s)) then
    showinfo "Save Log" "No recorded events to save."
  else
    path ← asksaveasfilename ".txt" DEFAULT_LOGFILE "Save key event log as..." answer;
    if negb (Py.truthy_str path) then mret tt
    else
      try_except
        (with_file (open_append path) (λ f,
           f_write f ("# Key event log saved: " +:+ now1 +:+ "Z" +:+ Py.NL);;
           s ← get_self;
           for_each (events s) (λ r, f_write f (record_line r));;
           f_write f Py.NL);;
         s ← get_self;
         showinfo "Save Log"
           ("Saved " +:+ Py.str_of_nat (length (events s)) +:+ " events to:" +:+ Py.NL +:+ path);;
         _append_message now2
           ("Saved " +:+ Py.str_of_nat (length (events s)) +:+ " events to " +:+ Py.basename path))
        (λ e, showerror "Save Log" ("Failed to save file:" +:+ Py.NL +:+ e)).

(** [open_log_file]; the viewer window is logged with its title and text. *)
Definition open_log_file (answer : string) : M unit :=
  path ← askopenfilename "Open log file..." answer;
  if negb (Py.truthy_str path) then mret tt
  else
    try_except
      (body ← with_file (open_read path) (λ f, f_read f);
       emit (Toplevel ("Viewing: " +:+ Py.basename path) body))
      (λ e, showerror "Open Log" ("Failed to open file:" +:+ Py.NL +:+ e)).

(** [clear_events]; [answer] is consulted only if the question is asked. *)
Definition clear_events (answer : bool) (now : string) : M unit :=
  s ← get_self;
  if negb (Py.truthy_list (events s)) && Tk.is_blank (log_display s) then mret tt
  else
    yes ← askyesno "Clear" "Clear recorded events and display?" answer;
    if (yes : bool) then
      modify_self (set_events []);;
      modify_self (on_log_display (Tk.text_config normal));;
      modify_self (on_log_display Tk.delete_all);;
      modify_self (on_log_display (Tk.text_config disabled));;
      _append_message now "Cleared recorded events."
    else mret tt.

(** [on_close]; the early [return] is the only path that skips
    [self.root.destroy()]. *)
Definition on_close (answer : bool) : M unit :=
  s ← get_self;
  if Py.truthy_list (events s) then
    yes ← askyesno "Exit" "There are unsaved recorded events. Exit without saving?" answer;
    if negb yes then mret tt
    else modify_self root_destroy
  else modify_self root_destroy.

(** ** The event loop *)

(** What [root.mainloop()] can be handed: a callback with what the clock
    and the user supply to it, or a move of the surroundings (other
    programs change files, a fault is armed). *)
Inductive Step :=
| StartRecording (now : string)
| StopRecording (now : string)
| KeyPress (now : string) (event : KeyEvent)
| SaveLog (answer now1 now2 : string)
| OpenLogFile (answer : string)
| ClearEvents (answer : bool) (now : string)
| OnClose (answer : bool)
| Surroundings (fs : gmap string string) (ft : option (nat * string)).

Definition dispatch (st : Step) : M unit :=
  match st with
  | StartRecording now => start_recording now
  | StopRecording now => stop_recording now
  | KeyPress now event => on_key_press now event
  | SaveLog answer now1 now2 => save_log answer now1 now2
  | OpenLogFile answer => open_log_file answer
  | ClearEvents answer now => clear_events answer now
  | OnClose answer => on_close answer
  | Surroundings fs ft => λ w, (Ok tt, mkWorld (self w) fs ft, [])
  end.

(** [root.mainloop()]: callbacks run one after the other until the root
    window is destroyed; Tk reports an exception that escapes a callback
    and carries on. *)
Fixpoint mainloop (steps : list Step) : M unit :=
  match steps with
  | [] => mret tt
  | st :: rest =>
      s ← get_self;
      if alive s then
        try_except (dispatch st) (λ _, mret tt);;
        mainloop rest
      else mret tt
  end.

(** [app = SafeKeyRecorder(root)] in given surroundings. *)
Definition startup (fs : gmap string string) (ft : option (nat * string)) : World :=
  mkWorld init fs ft.

(** ** Notions used to state the properties *)

(** The Display Panel line of an Event Record. *)
Definition display_line (r : EventRecord) : string :=
  let '(t, k, c) := r in t +:+ " | " +:+ k +:+ " | " +:+ c.

(** The Display Panel line of an informational message. *)
Definition info_line (now msg : string) : string :=
  "[INFO] " +:+ now +:+ "Z | " +:+ msg.

(** The Display Panel text. *)
Definition display (w : World) : string := content (log_display (self w)).

(** How many lines a text ends. *)
Fixpoint count_newlines (s : string) : nat :=
  match s with
  | EmptyString => 0
  | String c s' => (if Ascii.eqb c Py.newline then 1 else 0) + count_newlines s'
  end.

(** Each newline replaced by the two characters backslash and n. *)
Fixpoint escape_newlines (s : string) : string :=
  match s with
  | EmptyString => EmptyString
  | String c s' =>
      if Ascii.eqb c Py.newline then Py.BACKSLASH_N +:+ escape_newlines s'
      else String c (escape_newlines s')
  end.

(** Strings written one after the other. *)
Definition join (l : list string) : string := foldr String.append EmptyString l.

(** The block of a save: the header line, one tab-separated line per
    Event Record, one blank line. *)
Definition saved_block (now : string) (evs : list EventRecord) : string :=
  "# Key event log saved: " +:+ now +:+ "Z" +:+ Py.NL
  +:+ join (map (λ '(t, k, c), t +:+ Py.TAB +:+ k +:+ Py.TAB +:+ c +:+ Py.NL) evs)
  +:+ Py.NL.

(** The file operations of one save of [n] Event Records: opening, the
    header, [n] lines, the blank line, closing. *)
Definition save_ops (n : nat) : nat := n + 4.

(** The next [k] file operations all succeed. *)
Definition survives (k : nat) (ft : option (nat * string)) : Prop :=
  match ft with
  | None => True
  | Some (n, _) => k ≤ n
  end.

(** The fault counter after [k] file operations that succeeded. *)
Definition after_ops (k : nat) (ft : option (nat * string)) : option (nat * string) :=
  match ft with
  | None => None
  | Some (n, e) => Some (n - k, e)
  end.

(** A computation that only does file operations, [k] of them, which
    together turn the files [fs] into [upd fs]: it leaves [self] alone
    and shows nothing; it succeeds when the fault counter lets [k]
    operations through, and raises the armed exception otherwise.  [P]
    restricts the sessions it is run in. *)
Definition file_script (P : SafeKeyRecorder → Prop) (m : M unit) (k : nat)
    (upd : gmap string string → gmap string string) : Prop :=
  ∀ fs ft, ∃ r fs' ft',
    (∀ s, P s → m (mkWorld s fs ft) = (r, mkWorld s fs' ft', []))
    ∧ (survives k ft → r = Ok tt ∧ fs' = upd fs ∧ ft' = after_ops k ft)
    ∧ (∀ n e, ft = Some (n, e) → n < k → r = Raised e ∧ ft' = None).

(** The session with one more line on the Display Panel. *)
Definition displayed (line : string) (s : SafeKeyRecorder) : SafeKeyRecorder :=
  on_log_display (λ d, mkText (content d +:+ line +:+ Py.NL) disabled) s.

(** The Capture Gate and what the Control Panel shows of it agree. *)
Definition gate_view (s : SafeKeyRecorder) : Prop :=
  (recording s = true ↔
     start_btn s = disabled ∧ stop_btn s = normal ∧ text (status_label s) = "Recording: Yes")
  ∧ (recording s = false ↔
     start_btn s = normal ∧ stop_btn s = disabled ∧ text (status_label s) = "Recording: No").

Definition is_start_or_stop (st : Step) : bool :=
  match st with
  | StartRecording _ | StopRecording _ => true
  | _ => false
  end.

Definition is_confirmed_clear (st : Step) : bool :=
  match st with
  | ClearEvents true _ => true
  | _ => false
  end.

(** The session after a callback, and the sessions the event loop reaches. *)
Definition after (m : M unit) (w : World) : World := world_of (m w).

Inductive reachable : World → Prop :=
| reachable_startup fs ft : reachable (startup fs ft)
| reachable_step st w :
    reachable w → alive (self w) = true → reachable (after (dispatch st) w).

(** ** Notions used to state further properties *)

(** The text [t] begins with the text [s]. *)
Definition continues (s t : string) : Prop := ∃ sfx, t = s +:+ sfx.

(** No file has gone, and every file begins with what it held. *)
Definition files_kept (fs fs' : gmap string string) : Prop :=
  ∀ p, (is_Some (fs !! p) → is_Some (fs' !! p))
       ∧ continues (file_text fs p) (file_text fs' p).

(** A computation that keeps the files, whatever the fault counter. *)
Definition keeps_files {A} (m : M A) : Prop :=
  ∀ w, files_kept (files w) (files (world_of (m w))).

Definition is_save (st : Step) : bool :=
  match st with
  | SaveLog _ _ _ => true
  | _ => false
  end.

Definition is_surroundings (st : Step) : bool :=
  match st with
  | Surroundings _ _ => true
  | _ => false
  end.

(** The Capture Gate and the Event Log as a machine of their own: what a
    step does to the flag and the log, and whether the event loop goes on
    after it. *)
Definition log_step (st : Step) (flag : bool) (log : list EventRecord)
  : bool * bool * list EventRecord :=
  match st with
  | StartRecording _ => (true, true, log)
  | StopRecording _ => (true, false, log)
  | KeyPress now ev =>
      (true, flag,
       if flag then log ++ [(now +:+ "Z", keysym ev, char_repr_of (char ev))] else log)
  | ClearEvents true _ => (true, flag, [])
  | OnClose answer =>
      (match log with [] => false | _ => negb answer end, flag, log)
  | _ => (true, flag, log)
  end.

Fixpoint log_of (steps : list Step) (flag : bool) (log : list EventRecord)
  : list EventRecord :=
  match steps with
  | [] => log
  | st :: rest =>
      let '(go, flag', log') := log_step st flag log in
      if go then log_of rest flag' log' else log'
  end.

(** The [char_repr] of an Event Record is there and fits on one line. *)
Definition char_repr_ok (r : EventRecord) : Prop :=
  r.2 ≠ EmptyString ∧ count_newlines r.2 = 0.

(** * Properties *)

(** ** Running callbacks *)

Ltac run_callback :=
  cbv [start_recording stop_recording on_key_press clear_events on_close
       _append_message _append_to_display showinfo showerror askyesno
       asksaveasfilename askopenfilename emit modify_self get_self
       mbind M_bind mret M_ret world_of trace_of result_of after display
       set_recording set_events start_btn_config stop_btn_config
       status_label_config on_log_display root_destroy
       Tk.text_config Tk.insert_end Tk.delete_all Tk.is_blank
       self files fault recording events start_btn stop_btn status_label
       log_display alive content text_state text fg negb andb app
       Py.truthy_list Py.truthy_str].

Ltac destruct_world w :=
  let rec_ := fresh "rec" in
  let evs := fresh "evs" in
  let sb := fresh "sb" in
  let pb := fresh "pb" in
  let lbl := fresh "lbl" in
  let disp := fresh "disp" in
  let al := fresh "al" in
  let fs := fresh "fs" in
  let ft := fresh "ft" in
  destruct w as [[rec_ evs sb pb lbl disp al] fs ft].

(** ** Strings *)

Lemma append_cons (x : ascii) (a b : string) : String x a +:+ b = String x (a +:+ b).
Proof. reflexivity. Qed.

Lemma append_nil_l (b : string) : EmptyString +:+ b = b.
Proof. reflexivity. Qed.

Lemma append_assoc (a b c : string) : (a +:+ b) +:+ c = a +:+ (b +:+ c).
Proof. induction a as [|x a IH]; [done|]. rewrite !append_cons. congruence. Qed.

Lemma append_nil_r (a : string) : a +:+ EmptyString = a.
Proof. induction a as [|x a IH]; [done|]. rewrite append_cons. congruence. Qed.

Lemma count_newlines_app (a b : string) :
  count_newlines (a +:+ b) = count_newlines a + count_newlines b.
Proof.
  induction a as [|x a IH]; [done|].
  rewrite append_cons. simpl. rewrite IH. lia.
Qed.

(** [str.replace] of the newline is the character-wise escape. *)
Lemma replace_newline_escape (s : string) :
  Py.replace Py.NL Py.BACKSLASH_N s = escape_newlines s.
Proof.
  unfold Py.replace, Py.NL. induction s as [|c s IH]; [done|].
  cbn [Py.replace_go escape_newlines String.prefix String.length Nat.sub].
  destruct (Ascii.ascii_dec Py.newline c) as [<-|Hne].
  - rewrite Ascii.eqb_refl.
    replace (String.prefix EmptyString s) with true by (by destruct s).
    by rewrite IH.
  - destruct (Ascii.eqb_spec c Py.newline) as [->|_]; [done|]. by rewrite IH.
Qed.

Lemma escape_newlines_count (s : string) : count_newlines (escape_newlines s) = 0.
Proof.
  induction s as [|c s IH]; [done|]. cbn [escape_newlines].
  destruct (Ascii.eqb_spec c Py.newline) as [->|Hne].
  - by rewrite count_newlines_app, IH.
  - cbn [count_newlines]. destruct (Ascii.eqb_spec c Py.newline); [done|].
    by rewrite IH.
Qed.

Lemma char_repr_of_count (ch : string) : count_newlines (char_repr_of ch) = 0.
Proof.
  unfold char_repr_of. destruct (String.eqb ch EmptyString); [done|].
  rewrite replace_newline_escape. apply escape_newlines_count.
Qed.

(** ** The event loop *)

Lemma bind_run {A B} (m : M A) (f : A → M B) (w : World) :
  (m ≫= f) w =
  match m w with
  | (Ok a, w1, t1) => let '(r, w2, t2) := f a w1 in (r, w2, t1 ++ t2)
  | (Raised e, w1, t1) => (Raised e, w1, t1)
  end.
Proof. reflexivity. Qed.

Lemma bind_noop {B} (m : M unit) (k : M B) (w : World) :
  m w = (Ok tt, w, []) → (m;; k) w = k w.
Proof. intros H. rewrite bind_run, H. by destruct (k w) as [[r w2] t2]. Qed.

Lemma mainloop_closed (steps : list Step) (w : World) :
  alive (self w) = false → mainloop steps w = (Ok tt, w, []).
Proof.
  intros H. destruct steps as [|st rest]; [done|].
  cbn [mainloop]. rewrite bind_run. cbn [get_self]. by rewrite H.
Qed.

Lemma mainloop_cons (st : Step) (rest : list Step) (w : World) :
  alive (self w) = true →
  mainloop (st :: rest) w =
  (try_except (dispatch st) (λ _, mret tt);; mainloop rest) w.
Proof.
  intros H. cbn [mainloop]. rewrite bind_run. cbn [get_self]. rewrite H.
  by destruct ((try_except (dispatch st) (λ _, mret tt);; mainloop rest) w) as [[r w2] t2].
Qed.

Lemma mainloop_skip (st : Step) (rest : list Step) (w : World) :
  dispatch st w = (Ok tt, w, []) → mainloop (st :: rest) w = mainloop rest w.
Proof.
  intros H. destruct (alive (self w)) eqn:Hal.
  - rewrite mainloop_cons by done. apply bind_noop.
    unfold try_except. by rewrite H.
  - by rewrite !mainloop_closed.
Qed.

(** ** Capture Gate and key capture *)

Lemma on_key_press_closed now event w :
  recording (self w) = false → on_key_press now event w = (Ok tt, w, []).
Proof. destruct_world w. cbn [self recording]. intros ->. reflexivity. Qed.

Lemma on_key_press_open now event w :
  recording (self w) = true →
  events (self (after (on_key_press now event) w))
  = events (self w) ++ [(now +:+ "Z", keysym event, char_repr_of (char event))]
  ∧ display (after (on_key_press now event) w)
    = display w
      +:+ display_line (now +:+ "Z", keysym event, char_repr_of (char event))
      +:+ Py.NL.
Proof.
  destruct_world w. cbn [self recording]. intros ->.
  destruct disp as [txt st]. split; [reflexivity|].
  run_callback. unfold display_line. by rewrite !append_assoc.
Qed.

(** C1: a key event delivered while [recording] is false changes nothing
    (neither the Event Log nor the Display Panel), and the rest of the
    session runs as if the event had never been delivered, so nothing is
    buffered; a key event delivered while [recording] is true appends
    exactly one Event Record to the Event Log and exactly one line
    [timestamp | key_symbol | char_repr] to the Display Panel. *)
Theorem on_key_press_gate (now : string) (event : KeyEvent) (w : World) :
  let r := on_key_press now event w in
  let er := (now +:+ "Z", keysym event, char_repr_of (char event)) in
  (recording (self w) = false →
     r = (Ok tt, w, [])
     ∧ ∀ steps, mainloop (KeyPress now event :: steps) w = mainloop steps w)
  ∧ (recording (self w) = true →
     events (self (world_of r)) = events (self w) ++ [er]
     ∧ display (world_of r) = display w +:+ display_line er +:+ Py.NL
     ∧ (count_newlines now = 0 → count_newlines (keysym event) = 0 →
        count_newlines (display (world_of r)) = S (count_newlines (display w)))).
Proof.
  cbv zeta. split.
  - intros Hrec. split; [by apply on_key_press_closed|].
    intros steps. apply mainloop_skip. by apply on_key_press_closed.
  - intros Hrec. destruct (on_key_press_open now event w Hrec) as [Hev Hd].
    unfold after in Hev, Hd. split; [exact Hev|]. split; [exact Hd|].
    intros Hnow Hkey. rewrite Hd. unfold display_line.
    rewrite !count_newlines_app, Hnow, Hkey, char_repr_of_count. simpl. lia.
Qed.

Lemma on_key_press_gate_witness :
  on_key_press "t" (mkKeyEvent "a" "a") (startup ∅ None)
    = (Ok tt, startup ∅ None, [])
  ∧ display (after (on_key_press "t1" (mkKeyEvent "a" "a"))
              (after (start_recording "t0") (startup ∅ None)))
    = display (after (start_recording "t0") (startup ∅ None))
        +:+ "t1Z | a | a" +:+ Py.NL.
Proof.
  split.
  - apply (on_key_press_gate "t" (mkKeyEvent "a" "a") (startup ∅ None)).
    reflexivity.
  - apply (on_key_press_gate "t1" (mkKeyEvent "a" "a")
             (after (start_recording "t0") (startup ∅ None))).
    reflexivity.
Defined.

(** What [on_key_press] makes of [event.char]: [<non-printable>] when
    it is empty, and otherwise the character itself with every newline
    replaced by backslash-n. *)
Lemma char_repr_of_event (now : string) (event : KeyEvent) (w : World) :
  recording (self w) = true →
  ∃ c, last (events (self (after (on_key_press now event) w)))
         = Some (now +:+ "Z", keysym event, c)
    ∧ (char event = EmptyString → c = "<non-printable>")
    ∧ (char event ≠ EmptyString → c = escape_newlines (char event)).
Proof.
  intros Hrec. exists (char_repr_of (char event)).
  destruct (on_key_press_open now event w Hrec) as [Hev _].
  rewrite Hev, last_snoc. split; [done|]. unfold char_repr_of.
  destruct (String.eqb_spec (char event) EmptyString) as [Heq|Hne].
  - by split.
  - split; [done | by rewrite replace_newline_escape].
Qed.

Lemma escape_newlines_verbatim (s : string) :
  count_newlines s = 0 → escape_newlines s = s.
Proof.
  induction s as [|c s IH]; [done|]. cbn [count_newlines escape_newlines].
  destruct (Ascii.eqb c Py.newline); [done|]. intros H. by rewrite IH.
Qed.

(** A character that is there and is not the newline is recorded as it
    is, printable or not. *)
Lemma char_repr_of_verbatim (ch : string) :
  ch ≠ EmptyString → count_newlines ch = 0 → char_repr_of ch = ch.
Proof.
  intros Hne Hnl. unfold char_repr_of.
  destruct (String.eqb_spec ch EmptyString) as [->|_]; [done|].
  by rewrite replace_newline_escape, escape_newlines_verbatim.
Qed.

(** C3: the normalisation of [on_key_press] maps to [<non-printable>]
    only an event whose character is empty.  The [Return] key arrives
    from Tk with the carriage return as its character, which is no
    printable character; while recording, the Event Record of that event
    has the carriage return itself as [char_repr], not [<non-printable>]. *)
Theorem return_key_char_repr (now : string) (w : World) :
  recording (self w) = true →
  Py.has_printable Py.CR = false
  ∧ last (events (self (after (on_key_press now (mkKeyEvent "Return" Py.CR)) w)))
    = Some (now +:+ "Z", "Return", Py.CR)
  ∧ Py.CR ≠ "<non-printable>".
Proof.
  intros Hrec. split; [reflexivity|]. split; [|discriminate].
  destruct (on_key_press_open now (mkKeyEvent "Return" Py.CR) w Hrec) as [Hev _].
  by rewrite Hev, last_snoc.
Qed.

Lemma return_key_char_repr_witness :
  last (events (self (after (on_key_press "t2" (mkKeyEvent "Return" Py.CR))
                        (after (start_recording "t0") (startup ∅ None)))))
  = Some ("t2Z", "Return", Py.CR).
Proof.
  apply (return_key_char_repr "t2" (after (start_recording "t0") (startup ∅ None))).
  reflexivity.
Defined.

(** A newline is recorded as two characters, backslash and n. *)
Example char_repr_of_newline :
  char_repr_of Py.NL = "\n" ∧ String.length (char_repr_of Py.NL) = 2.
Proof. split; reflexivity. Qed.

Example char_repr_of_letter : char_repr_of "a" = "a".
Proof. reflexivity. Qed.

Lemma start_recording_open now w :
  recording (self w) = true → start_recording now w = (Ok tt, w, []).
Proof. destruct_world w. cbn [self recording]. intros ->. reflexivity. Qed.

Lemma stop_recording_closed now w :
  recording (self w) = false → stop_recording now w = (Ok tt, w, []).
Proof. destruct_world w. cbn [self recording]. intros ->. reflexivity. Qed.

Lemma start_recording_sets now w :
  recording (self (after (start_recording now) w)) = true.
Proof. destruct_world w. by destruct rec. Qed.

Lemma start_recording_ok now w : result_of (start_recording now w) = Ok tt.
Proof. destruct_world w. by destruct rec. Qed.

(** C8: [start()] twice in a row is [start()] once: the second call
    returns at once and leaves the whole session (flag, buttons, status,
    Display Panel, Event Log) as the first call left it, showing nothing;
    likewise [stop()] while [recording] is false changes nothing. *)
Theorem start_recording_idempotent (now1 now2 : string) (w : World) :
  (start_recording now1;; start_recording now2) w = start_recording now1 w
  ∧ start_recording now2 (after (start_recording now1) w)
      = (Ok tt, after (start_recording now1) w, [])
  ∧ (recording (self w) = true → start_recording now2 w = (Ok tt, w, []))
  ∧ (recording (self w) = false → stop_recording now2 w = (Ok tt, w, [])).
Proof.
  assert (H2 : start_recording now2 (after (start_recording now1) w)
               = (Ok tt, after (start_recording now1) w, [])).
  { apply start_recording_open, start_recording_sets. }
  repeat split.
  - rewrite bind_run. pose proof (start_recording_ok now1 w) as Hok.
    unfold after, world_of in H2. unfold result_of in Hok.
    destruct (start_recording now1 w) as [[r w1] t1]. cbn in Hok, H2.
    subst r. rewrite H2. by rewrite app_nil_r.
  - exact H2.
  - apply start_recording_open.
  - apply stop_recording_closed.
Qed.

Lemma start_recording_idempotent_witness :
  start_recording "t1" (after (start_recording "t0") (startup ∅ None))
    = (Ok tt, after (start_recording "t0") (startup ∅ None), [])
  ∧ stop_recording "t1" (startup ∅ None) = (Ok tt, startup ∅ None, []).
Proof.
  destruct (start_recording_idempotent "t0" "t1" (startup ∅ None))
    as (_ & Hsecond & _ & Hstop).
  split; [exact Hsecond | by apply Hstop].
Defined.

(** ** Clear *)

(** C4: Clear returns at once, asking nothing and changing nothing,
    exactly when the Event Log and the Display Panel are both empty;
    otherwise it asks [Clear recorded events and display?]; on yes the
    Event Log becomes empty and the Display Panel holds a single info line
    noting the clear, the rest of the session being untouched; on no the
    session is unchanged. *)
Theorem clear_events_spec (answer : bool) (now : string) (w : World) :
  let r := clear_events answer now w in
  let both_empty := events (self w) = [] ∧ display w = EmptyString in
  (both_empty → r = (Ok tt, w, []))
  ∧ (trace_of r = [] ↔ both_empty)
  ∧ (¬ both_empty →
     trace_of r = [AskYesNo "Clear" "Clear recorded events and display?" answer]
     ∧ (answer = true →
        events (self (world_of r)) = []
        ∧ display (world_of r) = info_line now "Cleared recorded events." +:+ Py.NL
        ∧ world_of r =
          mkWorld (on_log_display
                     (λ _, mkText (info_line now "Cleared recorded events." +:+ Py.NL) disabled)
                     (set_events [] (self w)))
                  (files w) (fault w))
     ∧ (answer = false → world_of r = w)).
Proof.
  cbv zeta. destruct_world w. destruct disp as [txt st].
  unfold display. cbn [self events log_display content].
  destruct evs as [|e evs]; [destruct txt as [|c txt]|].
  - split; [done|]. split; [done|]. intros []. done.
  - split; [by intros [_ ?]|].
    split; [split; [by destruct answer | by intros [_ ?]]|].
    intros _. destruct answer; repeat split; done.
  - split; [by intros [? _]|].
    split; [split; [by destruct answer | by intros [? _]]|].
    intros _. destruct answer; repeat split; done.
Qed.

Lemma clear_events_spec_witness :
  clear_events true "t" (startup ∅ None) = (Ok tt, startup ∅ None, [])
  ∧ events (self (after (clear_events true "t9")
       (after (on_key_press "t1" (mkKeyEvent "a" "a"))
          (after (start_recording "t0") (startup ∅ None))))) = []
  ∧ after (clear_events false "t9")
       (after (start_recording "t0") (startup ∅ None))
    = after (start_recording "t0") (startup ∅ None).
Proof.
  split; [|split].
  - by apply (clear_events_spec true "t" (startup ∅ None)).
  - apply (clear_events_spec true "t9"
             (after (on_key_press "t1" (mkKeyEvent "a" "a"))
                (after (start_recording "t0") (startup ∅ None)))).
    + intros [[=] _].
    + reflexivity.
  - apply (clear_events_spec false "t9"
             (after (start_recording "t0") (startup ∅ None))).
    + intros [_ [=]].
    + reflexivity.
Defined.

(** ** Shutdown *)

(** C7: with a non-empty Event Log the close request asks for
    confirmation; on no the session (window, Event Log, everything) is
    as before and the event loop carries on; on yes, or with an empty
    Event Log, the root window is destroyed, the event loop runs no
    further callback and the program ends. *)
Theorem on_close_spec (answer : bool) (w : World) :
  let r := on_close answer w in
  let closed := mkWorld (root_destroy (self w)) (files w) (fault w) in
  (events (self w) ≠ [] →
     trace_of r
       = [AskYesNo "Exit" "There are unsaved recorded events. Exit without saving?" answer]
     ∧ (answer = false → world_of r = w)
     ∧ (answer = true → world_of r = closed))
  ∧ (events (self w) = [] → r = (Ok tt, closed, []))
  ∧ (events (self w) = [] ∨ answer = true →
     alive (self (world_of r)) = false
     ∧ ∀ rest, mainloop (OnClose answer :: rest) w = mainloop [OnClose answer] w).
Proof.
  cbv zeta.
  assert (Hyes : events (self w) = [] ∨ answer = true →
     world_of (on_close answer w) = mkWorld (root_destroy (self w)) (files w) (fault w)).
  { destruct_world w. cbn [self events]. destruct evs as [|e evs]; [done|].
    intros [[=] | ->]. reflexivity. }
  split; [|split].
  - clear Hyes. destruct_world w. cbn [self events].
    destruct evs as [|e evs]; [done|].
    intros _. by destruct answer.
  - clear Hyes. destruct_world w. cbn [self events]. intros ->. reflexivity.
  - intros H. specialize (Hyes H). split; [by rewrite Hyes|].
    intros rest. destruct (alive (self w)) eqn:Hal.
    + rewrite !mainloop_cons by done. rewrite !bind_run.
      unfold try_except. unfold world_of in Hyes. cbn [dispatch].
      destruct (on_close answer w) as [[[[]|e] w1] t1]; cbn in Hyes; subst w1.
      * cbv beta iota zeta. by rewrite !mainloop_closed.
      * cbv beta iota zeta. cbn [mret M_ret]. cbv beta iota zeta.
        by rewrite !mainloop_closed.
    + by rewrite !mainloop_closed.
Qed.

Lemma on_close_spec_witness :
  after (on_close false)
    (after (on_key_press "t1" (mkKeyEvent "a" "a"))
       (after (start_recording "t0") (startup ∅ None)))
  = after (on_key_press "t1" (mkKeyEvent "a" "a"))
      (after (start_recording "t0") (startup ∅ None))
  ∧ alive (self (after (on_close false) (startup ∅ None))) = false.
Proof.
  split.
  - destruct (on_close_spec false
                (after (on_key_press "t1" (mkKeyEvent "a" "a"))
                   (after (start_recording "t0") (startup ∅ None))))
      as (Hask & _ & _).
    destruct Hask as (_ & Hno & _); [discriminate|].
    exact (Hno eq_refl).
  - destruct (on_close_spec false (startup ∅ None)) as (_ & _ & Hend).
    destruct Hend as (Hdead & _); [by left|]. exact Hdead.
Defined.

(** ** File scripts *)

Lemma after_ops_0 ft : after_ops 0 ft = ft.
Proof. destruct ft as [[n e]|]; [|done]. simpl. by rewrite Nat.sub_0_r. Qed.

Lemma after_ops_add k1 k2 ft : after_ops k2 (after_ops k1 ft) = after_ops (k1 + k2) ft.
Proof. destruct ft as [[n e]|]; [|done]. simpl. f_equal. f_equal. lia. Qed.

Lemma survives_add k1 k2 ft :
  survives (k1 + k2) ft ↔ survives k1 ft ∧ survives k2 (after_ops k1 ft).
Proof. destruct ft as [[n e]|]; simpl; [lia | tauto]. Qed.

Lemma file_script_weaken P m k k' upd upd' :
  file_script P m k upd → k = k' → (∀ fs, upd fs = upd' fs) →
  file_script P m k' upd'.
Proof.
  intros H <- Hupd fs ft. destruct (H fs ft) as (r & fs' & ft' & Hrun & Hok & Hfail).
  exists r, fs', ft'. rewrite <- Hupd. done.
Qed.

Lemma file_script_ret P : file_script P (mret tt) 0 id.
Proof.
  intros fs ft. exists (Ok tt), fs, ft. split; [done|]. split.
  - intros _. by rewrite after_ops_0.
  - intros n e _ Hlt. lia.
Qed.

Lemma file_script_op P : file_script P file_op 1 id.
Proof.
  intros fs [[[|n] e]|].
  - exists (Raised e), fs, None. split; [done|]. split; [simpl; lia|].
    by intros n' e' [= <- <-] _.
  - exists (Ok tt), fs, (Some (n, e)). split; [done|]. split.
    + intros _. simpl. by rewrite Nat.sub_0_r.
    + intros n' e' [= <- <-] Hlt. lia.
  - exists (Ok tt), fs, None. split; [done|]. split; [done|]. by intros n e [=].
Qed.

Lemma file_script_write P f data : file_script P (f_write f data) 1 (append_to f data).
Proof.
  intros fs [[[|n] e]|].
  - exists (Raised e), fs, None. split; [done|]. split; [simpl; lia|].
    by intros n' e' [= <- <-] _.
  - exists (Ok tt), (append_to f data fs), (Some (n, e)). split; [done|]. split.
    + intros _. simpl. by rewrite Nat.sub_0_r.
    + intros n' e' [= <- <-] Hlt. lia.
  - exists (Ok tt), (append_to f data fs), None.
    split; [done|]. split; [done|]. by intros n e [=].
Qed.

Lemma file_script_seq P m1 m2 k1 k2 upd1 upd2 :
  file_script P m1 k1 upd1 → file_script P m2 k2 upd2 →
  file_script P (m1;; m2) (k1 + k2) (upd2 ∘ upd1).
Proof.
  intros H1 H2 fs ft.
  destruct (H1 fs ft) as (r1 & fs1 & ft1 & Hrun1 & Hok1 & Hfail1).
  destruct (H2 fs1 ft1) as (r2 & fs2 & ft2 & Hrun2 & Hok2 & Hfail2).
  destruct r1 as [[]|e1].
  - exists r2, fs2, ft2. split; [|split].
    + intros s Hs. rewrite bind_run, (Hrun1 s Hs), (Hrun2 s Hs). done.
    + intros [Hs1 Hs2]%survives_add. destruct (Hok1 Hs1) as (_ & -> & ->).
      destruct (Hok2 Hs2) as (-> & -> & ->). by rewrite after_ops_add.
    + intros n e -> Hlt. destruct (decide (n < k1)) as [Hn|Hn].
      * by destruct (Hfail1 n e eq_refl Hn).
      * destruct Hok1 as (_ & -> & ->); [simpl; lia|].
        apply (Hfail2 (n - k1) e); [done | lia].
  - exists (Raised e1), fs1, ft1. split; [|split].
    + intros s Hs. rewrite bind_run, (Hrun1 s Hs). done.
    + intros [Hs1 _]%survives_add. by destruct (Hok1 Hs1).
    + intros n e -> Hlt. destruct (decide (n < k1)) as [Hn|Hn].
      * by apply (Hfail1 n e).
      * by destruct Hok1; [simpl; lia|].
Qed.

Lemma file_script_for_each {A} P (body : A → M unit) (upd : A → gmap string string → gmap string string) l :
  (∀ x, file_script P (body x) 1 (upd x)) →
  file_script P (for_each l body) (length l) (λ fs, foldl (λ fs x, upd x fs) fs l).
Proof.
  intros Hbody. induction l as [|x l IH].
  - apply file_script_ret.
  - cbn [for_each]. eapply file_script_weaken.
    + apply file_script_seq; [apply Hbody | apply IH].
    + done.
    + done.
Qed.

Lemma file_script_get_self (m : list EventRecord → M unit) evs k upd :
  file_script (λ s, events s = evs) (m evs) k upd →
  file_script (λ s, events s = evs) (s ← get_self; m (events s)) k upd.
Proof.
  intros H fs ft. destruct (H fs ft) as (r & fs' & ft' & Hrun & Hok & Hfail).
  exists r, fs', ft'. split; [|done].
  intros s Hs. rewrite bind_run. cbn [get_self self]. rewrite Hs, (Hrun s Hs).
  done.
Qed.

Lemma file_script_ext P m m' k upd :
  (∀ w, m w = m' w) → file_script P m k upd → file_script P m' k upd.
Proof.
  intros Hext H fs ft. destruct (H fs ft) as (r & fs' & ft' & Hrun & Hrest).
  exists r, fs', ft'. split; [|done]. intros s Hs. rewrite <- Hext. by apply Hrun.
Qed.

Lemma file_script_modify P g : file_script P (modify_files g) 0 g.
Proof.
  intros fs ft. exists (Ok tt), (g fs), ft. split; [done|]. split.
  - intros _. by rewrite after_ops_0.
  - intros n e _ Hlt. lia.
Qed.

(** Closing on the way out is one more file operation. *)
Lemma file_script_finally P m k upd f :
  file_script P m k upd → file_script P (try_finally m (f_close f)) (k + 1) upd.
Proof.
  intros H fs ft. destruct (H fs ft) as (r1 & fs1 & ft1 & Hrun & Hok & Hfail).
  destruct ft as [[n e]|].
  - destruct (decide (n < k)) as [Hlt|Hge].
    + destruct (Hfail n e eq_refl Hlt) as [-> ->].
      exists (Raised e), fs1, None. split; [|split].
      * intros s Hs. unfold try_finally. by rewrite (Hrun s Hs).
      * simpl. lia.
      * by intros n' e' [= <- <-] _.
    + destruct Hok as (-> & -> & ->); [simpl; lia|]. simpl in Hrun.
      destruct (n - k) as [|j] eqn:Hj.
      * exists (Raised e), (upd fs), None. split; [|split].
        -- intros s Hs. unfold try_finally. by rewrite (Hrun s Hs).
        -- simpl. lia.
        -- by intros n' e' [= <- <-] _.
      * exists (Ok tt), (upd fs), (Some (j, e)). split; [|split].
        -- intros s Hs. unfold try_finally. by rewrite (Hrun s Hs).
        -- intros _. split; [done|]. split; [done|]. simpl. do 2 f_equal. lia.
        -- intros n' e' [= <- <-] Hlt. lia.
  - destruct Hok as (-> & -> & ->); [done|].
    exists (Ok tt), (upd fs), None. split; [|split].
    + intros s Hs. unfold try_finally. by rewrite (Hrun s Hs).
    + done.
    + by intros n e [=].
Qed.

Lemma with_file_append_run (path : string) (body : string → M unit) (w : World) :
  with_file (open_append path) body w
  = (file_op;; modify_files (touch path);; try_finally (body path) (f_close path)) w.
Proof.
  unfold with_file, open_append. rewrite !bind_run.
  destruct (file_op w) as [[[[]|e] w1] t1]; [|done].
  rewrite !bind_run. cbn [modify_files mret M_ret]. cbv beta iota zeta.
  destruct (try_finally (body path) (f_close path) _) as [[r2 w2] t2].
  by rewrite !app_nil_r.
Qed.

(** ** Persistence: saving *)

Lemma append_to_lookup f data fs t :
  fs !! f = Some t →
  append_to f data fs = <[f := t +:+ data]> fs
  ∧ append_to f data fs !! f = Some (t +:+ data).
Proof.
  intros H. unfold append_to, file_text. rewrite H. cbn [default].
  split; [done | apply lookup_insert_eq].
Qed.

Lemma foldl_append_to {A} f (g : A → string) (l : list A) (fs : gmap string string) t :
  fs !! f = Some t →
  foldl (λ fs x, append_to f (g x) fs) fs l = <[f := t +:+ join (map g l)]> fs.
Proof.
  revert fs t. induction l as [|x l IH]; intros fs t H.
  - cbn. rewrite append_nil_r. by rewrite insert_id.
  - cbn [foldl map]. destruct (append_to_lookup f (g x) fs t H) as [Heq Hlk].
    rewrite (IH _ _ Hlk), Heq, insert_insert_eq.
    unfold join. cbn [foldr]. by rewrite append_assoc.
Qed.

(** The writes of [save_log] between opening and closing the file. *)
Lemma save_body_script (f now1 : string) (evs : list EventRecord) :
  file_script (λ s, events s = evs)
    (f_write f ("# Key event log saved: " +:+ now1 +:+ "Z" +:+ Py.NL);;
     s ← get_self;
     for_each (events s) (λ r, f_write f (record_line r));;
     f_write f Py.NL)
    (length evs + 2)
    (λ fs, append_to f Py.NL
             (foldl (λ fs r, append_to f (record_line r) fs)
                (append_to f ("# Key event log saved: " +:+ now1 +:+ "Z" +:+ Py.NL) fs)
                evs)).
Proof.
  eapply file_script_weaken.
  - apply file_script_seq; [apply file_script_write|].
    apply (file_script_get_self
             (λ l, for_each l (λ r, f_write f (record_line r));; f_write f Py.NL)).
    apply file_script_seq; [|apply file_script_write].
    apply file_script_for_each. intros r. apply file_script_write.
  - lia.
  - done.
Qed.

Lemma save_file_script (path now1 : string) (evs : list EventRecord) :
  file_script (λ s, events s = evs)
    (with_file (open_append path) (λ f,
       f_write f ("# Key event log saved: " +:+ now1 +:+ "Z" +:+ Py.NL);;
       s ← get_self;
       for_each (events s) (λ r, f_write f (record_line r));;
       f_write f Py.NL))
    (save_ops (length evs))
    (λ fs, <[path := file_text fs path +:+ saved_block now1 evs]> fs).
Proof.
  eapply file_script_ext; [intros w; symmetry; apply with_file_append_run|].
  eapply file_script_weaken.
  - apply file_script_seq; [apply file_script_op|].
    apply file_script_seq; [apply file_script_modify|].
    apply file_script_finally, save_body_script.
  - unfold save_ops. lia.
  - intros fs. cbn [compose id].
    assert (H0 : touch path fs !! path = Some (file_text fs path))
      by apply lookup_insert_eq.
    destruct (append_to_lookup path
                ("# Key event log saved: " +:+ now1 +:+ "Z" +:+ Py.NL) _ _ H0)
      as [Heq1 H1].
    rewrite (foldl_append_to path record_line evs _ _ H1).
    rewrite Heq1. unfold touch at 1. unfold append_to, file_text.
    rewrite !insert_insert_eq, lookup_insert_eq. cbn [default].
    rewrite ?insert_insert_eq. f_equal.
    unfold saved_block, record_line. cbv [id]. rewrite !append_assoc. reflexivity.
Qed.

Lemma asksaveasfilename_run (ext ini title answer : string) (w : World) :
  asksaveasfilename ext ini title answer w
  = (Ok answer, w, [AskSaveAsFilename ext ini title answer]).
Proof. reflexivity. Qed.

(** How [save_log] runs once a path was chosen for a non-empty Event
    Log: the outcome of the write decides between the two endings. *)
Lemma save_log_run (answer now1 now2 : string) (evs : list EventRecord)
    (fs : gmap string string) (ft : option (nat * string)) :
  evs ≠ [] → answer ≠ EmptyString →
  ∃ r fs' ft',
    (survives (save_ops (length evs)) ft →
       r = Ok tt
       ∧ fs' = <[answer := file_text fs answer +:+ saved_block now1 evs]> fs
       ∧ ft' = after_ops (save_ops (length evs)) ft)
    ∧ (∀ n e, ft = Some (n, e) → n < save_ops (length evs) → r = Raised e ∧ ft' = None)
    ∧ ∀ s, events s = evs →
        save_log answer now1 now2 (mkWorld s fs ft) =
        match r with
        | Ok _ =>
            (Ok tt,
             mkWorld (displayed (info_line now2
                        ("Saved " +:+ Py.str_of_nat (length evs) +:+ " events to "
                         +:+ Py.basename answer)) s) fs' ft',
             [AskSaveAsFilename ".txt" DEFAULT_LOGFILE "Save key event log as..." answer;
              ShowInfo "Save Log"
                ("Saved " +:+ Py.str_of_nat (length evs) +:+ " events to:"
                 +:+ Py.NL +:+ answer)])
        | Raised e =>
            (Ok tt, mkWorld s fs' ft',
             [AskSaveAsFilename ".txt" DEFAULT_LOGFILE "Save key event log as..." answer;
              ShowError "Save Log" ("Failed to save file:" +:+ Py.NL +:+ e)])
        end.
Proof.
  intros Hevs Hans.
  destruct (save_file_script answer now1 evs fs ft)
    as (r & fs' & ft' & Hrun & Hok & Hfail).
  exists r, fs', ft'. split; [exact Hok|]. split; [exact Hfail|].
  intros s Hs. specialize (Hrun s Hs).
  destruct evs as [|ev evs]; [done|]. destruct answer as [|c answer]; [done|].
  unfold save_log. rewrite bind_run. cbn [get_self self]. rewrite Hs.
  cbn [Py.truthy_list negb]. cbv beta iota zeta.
  rewrite bind_run, asksaveasfilename_run. cbv beta iota zeta.
  cbn [Py.truthy_str negb]. unfold try_except. rewrite bind_run, Hrun.
  destruct r as [[]|e].
  - destruct s. cbn [events] in Hs. subst. reflexivity.
  - reflexivity.
Qed.

(** Whatever happens, [save_log] changes nothing of [self] but the
    Display Panel. *)
Lemma save_log_frame (answer now1 now2 : string) (w : World) :
  ∃ d, self (after (save_log answer now1 now2) w) = on_log_display (λ _, d) (self w).
Proof.
  destruct w as [s fs ft].
  destruct (events s) as [|ev evs] eqn:Hevs.
  { exists (log_display s). destruct s. cbn in Hevs. subst. reflexivity. }
  destruct answer as [|c answer].
  { exists (log_display s). destruct s. cbn in Hevs. subst. reflexivity. }
  destruct (save_log_run (String c answer) now1 now2 (ev :: evs) fs ft)
    as (r & fs' & ft' & _ & _ & Hrun); [done..|].
  unfold after. rewrite (Hrun s Hevs). destruct r as [[]|e].
  - eexists. destruct s. reflexivity.
  - exists (log_display s). by destruct s.
Qed.

Lemma save_log_no_events (answer now1 now2 : string) (w : World) :
  events (self w) = [] →
  save_log answer now1 now2 w
  = (Ok tt, w, [ShowInfo "Save Log" "No recorded events to save."]).
Proof.
  destruct_world w. cbn [self events]. intros ->. reflexivity.
Qed.

(** C6: with an empty Event Log, [save_log] shows the notice [No
    recorded events to save.] and returns: no file dialog is opened, no
    file operation is attempted, and the session is as before. *)
Theorem save_log_empty (answer now1 now2 : string) (w : World) :
  events (self w) = [] →
  save_log answer now1 now2 w
  = (Ok tt, w, [ShowInfo "Save Log" "No recorded events to save."]).
Proof. apply save_log_no_events. Qed.

Lemma save_log_empty_witness :
  save_log "out.txt" "t1" "t2" (startup ∅ (Some (0, "disk full")))
  = (Ok tt, startup ∅ (Some (0, "disk full")),
     [ShowInfo "Save Log" "No recorded events to save."]).
Proof.
  apply (save_log_empty "out.txt" "t1" "t2" (startup ∅ (Some (0, "disk full")))).
  reflexivity.
Defined.

(** C2: for a non-empty Event Log, a chosen path and a write that goes
    through, [save_log] leaves the chosen file holding what it held
    before followed by one block: the header line, one line
    [t TAB k TAB c] per Event Record in log order, and one blank line.
    No other file changes, and the user is told how many events were
    saved. *)
Theorem save_log_appends_block (answer now1 now2 : string) (w : World) :
  events (self w) ≠ [] → answer ≠ EmptyString →
  survives (save_ops (length (events (self w)))) (fault w) →
  let r := save_log answer now1 now2 w in
  result_of r = Ok tt
  ∧ files (world_of r)
    = <[answer := file_text (files w) answer +:+ saved_block now1 (events (self w))]> (files w)
  ∧ file_text (files (world_of r)) answer
    = file_text (files w) answer +:+ saved_block now1 (events (self w))
  ∧ (∀ p, p ≠ answer → files (world_of r) !! p = files w !! p)
  ∧ trace_of r
    = [AskSaveAsFilename ".txt" DEFAULT_LOGFILE "Save key event log as..." answer;
       ShowInfo "Save Log"
         ("Saved " +:+ Py.str_of_nat (length (events (self w))) +:+ " events to:"
          +:+ Py.NL +:+ answer)].
Proof.
  destruct w as [s fs ft]. cbn [self files fault]. intros Hevs Hans Hsurv. cbv zeta.
  destruct (save_log_run answer now1 now2 (events s) fs ft Hevs Hans)
    as (r & fs' & ft' & Hok & _ & Hrun).
  destruct (Hok Hsurv) as (-> & -> & ->). rewrite (Hrun s eq_refl).
  cbn [result_of world_of trace_of fst snd files].
  split; [done|]. split; [done|]. split; [|split; [|done]].
  - unfold file_text at 1. by rewrite lookup_insert_eq.
  - intros p Hp. by rewrite lookup_insert_ne.
Qed.

Lemma save_log_appends_block_witness :
  let w := after (mainloop [StartRecording "t0";
                            KeyPress "t1" (mkKeyEvent "a" "a");
                            KeyPress "t2" (mkKeyEvent "Return" EmptyString);
                            StopRecording "t3"])
             (startup {["out.txt" := "old" +:+ Py.NL]} None) in
  events (self w)
    = [("t1Z", "a", "a"); ("t2Z", "Return", "<non-printable>")]
  ∧ file_text (files (after (save_log "out.txt" "t4" "t5") w)) "out.txt"
    = file_text (files w) "out.txt"
      +:+ saved_block "t4" [("t1Z", "a", "a"); ("t2Z", "Return", "<non-printable>")].
Proof.
  intros w.
  assert (Hev : events (self w)
                = [("t1Z", "a", "a"); ("t2Z", "Return", "<non-printable>")])
    by reflexivity.
  split; [exact Hev|].
  destruct (save_log_appends_block "out.txt" "t4" "t5" w) as (_ & _ & Htext & _).
  - rewrite Hev. discriminate.
  - discriminate.
  - exact I.
  - rewrite Hev in Htext. exact Htext.
Defined.

Example saved_block_scenario :
  saved_block "t4" [("t1Z", "a", "a"); ("t2Z", "Return", "<non-printable>")]
  = "# Key event log saved: t4Z" +:+ Py.NL
    +:+ "t1Z" +:+ Py.TAB +:+ "a" +:+ Py.TAB +:+ "a" +:+ Py.NL
    +:+ "t2Z" +:+ Py.TAB +:+ "Return" +:+ Py.TAB +:+ "<non-printable>" +:+ Py.NL
    +:+ Py.NL.
Proof. reflexivity. Qed.

(** C5: [save_log] never touches the Event Log nor the recording flag,
    whichever way it ends: the notice for an empty log, a cancelled
    dialog, a write that went through, or an I/O failure, in which case
    the error dialog [Failed to save file:] carries the text of the
    exception. *)
Theorem save_log_keeps_events (answer now1 now2 : string) (w : World) :
  let r := save_log answer now1 now2 w in
  result_of r = Ok tt
  ∧ events (self (world_of r)) = events (self w)
  ∧ recording (self (world_of r)) = recording (self w)
  ∧ (events (self w) = [] →
     trace_of r = [ShowInfo "Save Log" "No recorded events to save."])
  ∧ (events (self w) ≠ [] → answer = EmptyString →
     r = (Ok tt, w,
          [AskSaveAsFilename ".txt" DEFAULT_LOGFILE "Save key event log as..." answer]))
  ∧ (events (self w) ≠ [] → answer ≠ EmptyString →
     survives (save_ops (length (events (self w)))) (fault w) →
     trace_of r
     = [AskSaveAsFilename ".txt" DEFAULT_LOGFILE "Save key event log as..." answer;
        ShowInfo "Save Log"
          ("Saved " +:+ Py.str_of_nat (length (events (self w))) +:+ " events to:"
           +:+ Py.NL +:+ answer)])
  ∧ (∀ n e, events (self w) ≠ [] → answer ≠ EmptyString →
     fault w = Some (n, e) → n < save_ops (length (events (self w))) →
     trace_of r
     = [AskSaveAsFilename ".txt" DEFAULT_LOGFILE "Save key event log as..." answer;
        ShowError "Save Log" ("Failed to save file:" +:+ Py.NL +:+ e)]).
Proof.
  cbv zeta. destruct w as [s fs ft]. cbn [self fault].
  destruct (events s) as [|ev evs] eqn:Hevs.
  { destruct s. cbn in Hevs. subst. repeat split; done. }
  destruct answer as [|c answer].
  { destruct s. cbn in Hevs. subst. repeat split; done. }
  destruct (save_log_run (String c answer) now1 now2 (ev :: evs) fs ft)
    as (r & fs' & ft' & Hok & Hfail & Hrun); [done..|].
  rewrite (Hrun s Hevs).
  assert (Hself : ∀ line, events (displayed line s) = events s
                          ∧ recording (displayed line s) = recording s)
    by (by destruct s).
  split; [by destruct r as [[]|e]|].
  split; [destruct r as [[]|e]; [rewrite <- Hevs; apply Hself | done]|].
  split; [destruct r as [[]|e]; [apply Hself | done]|].
  split; [done|]. split; [done|]. split.
  - intros _ _ Hsurv. by destruct (Hok Hsurv) as (-> & _).
  - intros n e _ _ Hft Hlt. by destruct (Hfail n e Hft Hlt) as (-> & _).
Qed.

Lemma save_log_keeps_events_witness :
  let w := mkWorld (set_events [("t1Z", "a", "a")] init) ∅ (Some (2, "disk full")) in
  trace_of (save_log "out.txt" "t4" "t5" w)
  = [AskSaveAsFilename ".txt" DEFAULT_LOGFILE "Save key event log as..." "out.txt";
     ShowError "Save Log" ("Failed to save file:" +:+ Py.NL +:+ "disk full")]
  ∧ events (self (world_of (save_log "out.txt" "t4" "t5" w))) = [("t1Z", "a", "a")].
Proof.
  intros w.
  destruct (save_log_keeps_events "out.txt" "t4" "t5" w)
    as (_ & Hev & _ & _ & _ & _ & Hfail).
  split; [|exact Hev].
  apply (Hfail 2 "disk full"); [discriminate | discriminate | reflexivity |].
  cbn. lia.
Defined.

(** ** Persistence: opening *)

Lemma askopenfilename_run (title answer : string) (w : World) :
  askopenfilename title answer w = (Ok answer, w, [AskOpenFilename title answer]).
Proof. reflexivity. Qed.

(** [open_log_file] leaves [self] and the files alone. *)
Lemma open_log_file_frame (answer : string) (w : World) :
  self (after (open_log_file answer) w) = self w
  ∧ files (after (open_log_file answer) w) = files w.
Proof.
  destruct w as [s fs ft]. destruct answer as [|c answer]; [done|].
  unfold after, open_log_file. rewrite bind_run, askopenfilename_run.
  cbv beta iota zeta. cbn [Py.truthy_str negb].
  cbv [try_except with_file open_read f_read f_close try_finally file_op get_files
       mbind M_bind mret M_ret mthrow M_throw emit showerror world_of
       self files fault fst snd].
  destruct ft as [[[|[|[|n]]] e]|]; destruct (fs !! String c answer); done.
Qed.

(** ** The session as a whole *)

Lemma try_except_pass (m : M unit) (w : World) :
  world_of (try_except m (λ _, mret tt) w) = world_of (m w).
Proof. unfold try_except. by destruct (m w) as [[[[]|e] w1] t1]. Qed.

Lemma try_except_ok (m : M unit) (w : World) :
  result_of (try_except m (λ _, mret tt) w) = Ok tt.
Proof. unfold try_except. by destruct (m w) as [[[[]|e] w1] t1]. Qed.

Lemma mainloop_after_cons (st : Step) (rest : list Step) (w : World) :
  alive (self w) = true →
  after (mainloop (st :: rest)) w = after (mainloop rest) (after (dispatch st) w).
Proof.
  intros Hal. unfold after. rewrite mainloop_cons by done. rewrite bind_run.
  rewrite <- (try_except_pass (dispatch st) w).
  pose proof (try_except_ok (dispatch st) w) as Hok.
  unfold world_of, result_of in *.
  destruct (try_except (dispatch st) (λ _, mret tt) w) as [[r1 w1] t1].
  cbn [fst snd] in *. subst r1.
  by destruct (mainloop rest w1) as [[r2 w2] t2].
Qed.

(** What a callback other than start and stop leaves alone. *)
Lemma dispatch_gate_frame (st : Step) (w : World) :
  is_start_or_stop st = false →
  recording (self (after (dispatch st) w)) = recording (self w)
  ∧ start_btn (self (after (dispatch st) w)) = start_btn (self w)
  ∧ stop_btn (self (after (dispatch st) w)) = stop_btn (self w)
  ∧ status_label (self (after (dispatch st) w)) = status_label (self w).
Proof.
  destruct st as [now|now|now ev|answer now1 now2|answer|answer now|answer|fs' ft'];
    try done; intros _; cbn [dispatch].
  - destruct_world w. by destruct rec.
  - destruct (save_log_frame answer now1 now2 w) as [d ->]. by destruct (self w).
  - by destruct (open_log_file_frame answer w) as [-> _].
  - destruct_world w. destruct disp as [[|c txt] st], evs, answer; done.
  - destruct_world w. destruct evs, answer; done.
Qed.

(** What a callback does to the Event Log. *)
Lemma dispatch_events (st : Step) (w : World) :
  (is_confirmed_clear st = true ∧ events (self (after (dispatch st) w)) = [])
  ∨ events (self (after (dispatch st) w)) = events (self w)
  ∨ (∃ now ev, st = KeyPress now ev ∧ recording (self w) = true
       ∧ events (self (after (dispatch st) w))
         = events (self w) ++ [(now +:+ "Z", keysym ev, char_repr_of (char ev))]).
Proof.
  destruct st as [now|now|now ev|answer now1 now2|answer|answer now|answer|fs' ft'];
    cbn [dispatch].
  - right; left. destruct_world w. by destruct rec.
  - right; left. destruct_world w. by destruct rec.
  - destruct (recording (self w)) eqn:Hrec.
    + right; right. exists now, ev. split; [done|]. split; [done|].
      by apply on_key_press_open.
    + right; left. unfold after. by rewrite on_key_press_closed.
  - right; left. destruct (save_log_frame answer now1 now2 w) as [d ->].
    by destruct (self w).
  - right; left. by destruct (open_log_file_frame answer w) as [-> _].
  - destruct answer.
    + left. split; [done|]. destruct_world w.
      by destruct disp as [[|c txt] st], evs.
    + right; left. destruct_world w. by destruct disp as [[|c txt] st], evs.
  - right; left. destruct_world w. destruct evs, answer; done.
  - right; left. done.
Qed.

Lemma dispatch_events_exact (st : Step) (w : World) :
  events (self (after (dispatch st) w))
  = match st with
    | ClearEvents true _ => []
    | KeyPress now ev =>
        if recording (self w)
        then events (self w) ++ [(now +:+ "Z", keysym ev, char_repr_of (char ev))]
        else events (self w)
    | _ => events (self w)
    end.
Proof.
  destruct st as [now|now|now ev|answer now1 now2|answer|answer now|answer|fs' ft'];
    cbn [dispatch].
  - destruct_world w. by destruct rec.
  - destruct_world w. by destruct rec.
  - destruct_world w. by destruct rec.
  - destruct (save_log_frame answer now1 now2 w) as [d ->]. by destruct (self w).
  - by destruct (open_log_file_frame answer w) as [-> _].
  - destruct_world w. destruct disp as [txt st]. by destruct answer, evs, txt.
  - destruct_world w. by destruct evs, answer.
  - done.
Qed.

Lemma mainloop_after_app (steps1 steps2 : list Step) (w : World) :
  after (mainloop (steps1 ++ steps2)) w
  = after (mainloop steps2) (after (mainloop steps1) w).
Proof.
  revert w. induction steps1 as [|st rest IH]; intros w; [done|].
  cbn [app]. destruct (alive (self w)) eqn:Hal.
  - rewrite !mainloop_after_cons by done. apply IH.
  - unfold after.
    rewrite (mainloop_closed (st :: rest ++ steps2) w Hal),
      (mainloop_closed (st :: rest) w Hal).
    unfold world_of. cbn [fst snd]. by rewrite mainloop_closed.
Qed.

Lemma mainloop_after_alive (steps : list Step) (w : World) :
  alive (self (after (mainloop steps) w)) = true → alive (self w) = true.
Proof.
  destruct (alive (self w)) eqn:Hal; [done|].
  unfold after. rewrite mainloop_closed by done. cbn. congruence.
Qed.

(** C9: what a callback does to the Event Log is fixed by the callback:
    a confirmed Clear leaves it empty, a key event adds exactly its
    record at the end when recording is true and nothing otherwise, and
    every other callback (start, stop, save, open, a declined Clear,
    close) leaves it as it was.  So over any run without a confirmed
    Clear the Event Log keeps what it held and only grows, and a
    confirmed Clear at the end of any run leaves it empty.  An
    informational message changes the Display Panel and nothing else,
    and what a save writes does not depend on the Display Panel. *)
Theorem event_log_append_only :
  (∀ st w,
     events (self (after (dispatch st) w))
     = match st with
       | ClearEvents true _ => []
       | KeyPress now ev =>
           if recording (self w)
           then events (self w) ++ [(now +:+ "Z", keysym ev, char_repr_of (char ev))]
           else events (self w)
       | _ => events (self w)
       end)
  ∧ (∀ steps w,
       Forall (λ st, is_confirmed_clear st = false) steps →
       events (self w) `prefix_of` events (self (after (mainloop steps) w))
       ∧ length (events (self w)) ≤ length (events (self (after (mainloop steps) w))))
  ∧ (∀ steps now w,
       alive (self (after (mainloop steps) w)) = true →
       events (self (after (mainloop (steps ++ [ClearEvents true now])) w)) = [])
  ∧ (∀ now msg w,
       _append_message now msg w
       = (Ok tt, mkWorld (displayed (info_line now msg) (self w)) (files w) (fault w), [])
       ∧ events (displayed (info_line now msg) (self w)) = events (self w))
  ∧ (∀ answer now1 now2 s1 s2 fs ft,
       events s1 = events s2 →
       files (after (save_log answer now1 now2) (mkWorld s1 fs ft))
       = files (after (save_log answer now1 now2) (mkWorld s2 fs ft))).
Proof.
  split; [exact dispatch_events_exact|]. split; [|split; [|split]].
  - intros steps w Hsteps.
    assert (Hpre : events (self w) `prefix_of` events (self (after (mainloop steps) w))).
    { revert w. induction Hsteps as [|st rest Hst _ IH]; intros w; [done|].
      destruct (alive (self w)) eqn:Hal.
      - rewrite mainloop_after_cons by done.
        etrans; [|apply IH].
        destruct (dispatch_events st w) as [[Hc _]|[->|(now & ev & _ & _ & ->)]].
        + congruence.
        + done.
        + by apply prefix_app_r.
      - unfold after. by rewrite mainloop_closed. }
    split; [exact Hpre | by apply prefix_length].
  - intros steps now w Hal. rewrite mainloop_after_app.
    rewrite mainloop_after_cons by done.
    change (after (mainloop []) ?x) with x.
    by rewrite dispatch_events_exact.
  - intros now msg w. destruct_world w. destruct disp. done.
  - intros answer now1 now2 s1 s2 fs ft Hev.
    destruct (events s2) as [|ev evs] eqn:Hevs.
    { unfold after. by rewrite !save_log_no_events. }
    destruct answer as [|c answer].
    { destruct s1, s2. cbn in Hev, Hevs. subst. reflexivity. }
    destruct (save_log_run (String c answer) now1 now2 (ev :: evs) fs ft)
      as (r & fs' & ft' & _ & _ & Hrun); [done..|].
    unfold after. rewrite (Hrun s1 Hev), (Hrun s2 Hevs). by destruct r as [[]|e].
Qed.

Lemma event_log_append_only_witness :
  let w1 := after (mainloop [StartRecording "t0"; KeyPress "t1" (mkKeyEvent "a" "a")])
              (startup ∅ None) in
  events (self w1) = [("t1Z", "a", "a")]
  ∧ events (self w1)
      `prefix_of` events (self (after (mainloop [KeyPress "t2" (mkKeyEvent "b" "b");
                                                  SaveLog EmptyString "t3" "t4";
                                                  ClearEvents false "t5"]) w1))
  ∧ events (self (after (mainloop [KeyPress "t2" (mkKeyEvent "b" "b");
                                   ClearEvents true "t6"]) w1)) = [].
Proof.
  intros w1. destruct event_log_append_only as (_ & Hrun & Hclear & _).
  split; [reflexivity|]. split.
  - apply Hrun. repeat constructor.
  - apply (Hclear [KeyPress "t2" (mkKeyEvent "b" "b")] "t6" w1). reflexivity.
Defined.

Lemma start_recording_gate_view now w :
  gate_view (self w) → gate_view (self (after (start_recording now) w)).
Proof.
  destruct_world w. destruct rec; [done|]. intros _.
  unfold gate_view. cbn. split; (split; [by intros | by intros (? & ? & ?)]).
Qed.

Lemma stop_recording_gate_view now w :
  gate_view (self w) → gate_view (self (after (stop_recording now) w)).
Proof.
  destruct_world w. destruct rec; [|done]. intros _.
  unfold gate_view. cbn. split; (split; [by intros | by intros (? & ? & ?)]).
Qed.

Lemma dispatch_gate_view (st : Step) (w : World) :
  gate_view (self w) → gate_view (self (after (dispatch st) w)).
Proof.
  destruct (is_start_or_stop st) eqn:Hst.
  - destruct st; try done; cbn [dispatch].
    + apply start_recording_gate_view.
    + apply stop_recording_gate_view.
  - destruct (dispatch_gate_frame st w Hst) as (Hr & Hs & Hp & Hl).
    unfold gate_view. by rewrite Hr, Hs, Hp, Hl.
Qed.

(** C10: the recording flag is true exactly when Start is disabled,
    Stop is enabled and the status reads [Recording: Yes], and false
    exactly when Start is enabled, Stop is disabled and the status reads
    [Recording: No].  This holds when the window opens, every callback
    preserves it, so it holds in every session the event loop reaches;
    and no callback but start and stop changes the flag, either button
    or the status. *)
Theorem gate_view_invariant :
  gate_view init
  ∧ (∀ st w, gate_view (self w) → gate_view (self (after (dispatch st) w)))
  ∧ (∀ w, reachable w → gate_view (self w))
  ∧ (∀ steps fs ft, gate_view (self (after (mainloop steps) (startup fs ft))))
  ∧ (∀ st w, is_start_or_stop st = false →
       recording (self (after (dispatch st) w)) = recording (self w)
       ∧ start_btn (self (after (dispatch st) w)) = start_btn (self w)
       ∧ stop_btn (self (after (dispatch st) w)) = stop_btn (self w)
       ∧ status_label (self (after (dispatch st) w)) = status_label (self w)).
Proof.
  assert (Hinit : gate_view init).
  { unfold gate_view. cbn. split; (split; [by intros | by intros (? & ? & ?)]). }
  split; [exact Hinit|]. split; [exact dispatch_gate_view|]. split; [|split].
  - intros w Hw. induction Hw as [fs ft|st w _ IH _]; [exact Hinit|].
    by apply dispatch_gate_view.
  - intros steps fs ft. generalize (startup fs ft) (Hinit : gate_view (self (startup fs ft))).
    induction steps as [|st rest IH]; intros w Hw; [exact Hw|].
    destruct (alive (self w)) eqn:Hal.
    + rewrite mainloop_after_cons by done. by apply IH, dispatch_gate_view.
    + unfold after. by rewrite mainloop_closed.
  - exact dispatch_gate_frame.
Qed.

Lemma gate_view_invariant_witness :
  gate_view (self (after (dispatch (StartRecording "t0")) (startup ∅ None)))
  ∧ recording (self (after (dispatch (KeyPress "t1" (mkKeyEvent "a" "a")))
                       (startup ∅ None)))
    = recording (self (startup ∅ None)).
Proof.
  destruct gate_view_invariant as (Hinit & Hstep & _ & _ & Hframe).
  split.
  - apply Hstep. exact Hinit.
  - by apply Hframe.
Defined.

(** * Further properties *)

(** ** What a callback does to the Event Log and the Display Panel *)

Lemma continues_refl s : continues s s.
Proof. exists EmptyString. by rewrite append_nil_r. Qed.

Lemma continues_trans s t u : continues s t → continues t u → continues s u.
Proof. intros [a ->] [b ->]. exists (a +:+ b). by rewrite append_assoc. Qed.

Lemma continues_app s a : continues s (s +:+ a).
Proof. by exists a. Qed.

(** [save_log] either leaves [self] as it is or adds one info line. *)
Lemma save_log_self (answer now1 now2 : string) (w : World) :
  self (after (save_log answer now1 now2) w) = self w
  ∨ self (after (save_log answer now1 now2) w)
    = displayed (info_line now2
        ("Saved " +:+ Py.str_of_nat (length (events (self w))) +:+ " events to "
         +:+ Py.basename answer)) (self w).
Proof.
  destruct w as [s fs ft].
  destruct (events s) as [|ev evs] eqn:Hevs.
  { left. unfold after. by rewrite save_log_no_events. }
  destruct answer as [|c answer].
  { left. destruct s. cbn in Hevs. subst. reflexivity. }
  destruct (save_log_run (String c answer) now1 now2 (ev :: evs) fs ft)
    as (r & fs' & ft' & _ & _ & Hrun); [done..|].
  unfold after. rewrite (Hrun s Hevs). cbn [self]. rewrite Hevs.
  destruct r as [[]|e]; [by right | by left].
Qed.

Lemma displayed_fields line s :
  recording (displayed line s) = recording s
  ∧ events (displayed line s) = events s
  ∧ alive (displayed line s) = alive s
  ∧ log_display (displayed line s)
    = mkText (content (log_display s) +:+ line +:+ Py.NL) disabled.
Proof. by destruct s. Qed.

(** The four things a callback can do to the pair of the Event Log and
    the Display Panel. *)
Lemma dispatch_log_display (st : Step) (w : World) :
  let s := self w in
  let s' := self (after (dispatch st) w) in
  (events s' = events s ∧ log_display s' = log_display s)
  ∨ (∃ line, events s' = events s
       ∧ log_display s' = mkText (content (log_display s) +:+ line +:+ Py.NL) disabled)
  ∨ (∃ now ev, st = KeyPress now ev ∧ recording s = true
       ∧ events s' = events s ++ [(now +:+ "Z", keysym ev, char_repr_of (char ev))]
       ∧ log_display s'
         = mkText (content (log_display s)
                   +:+ display_line (now +:+ "Z", keysym ev, char_repr_of (char ev))
                   +:+ Py.NL) disabled)
  ∨ (is_confirmed_clear st = true ∧ events s' = []
       ∧ ∃ line, log_display s' = mkText (line +:+ Py.NL) disabled).
Proof.
  cbv zeta.
  destruct st as [now|now|now ev|answer now1 now2|answer|answer now|answer|fs' ft'];
    cbn [dispatch].
  - destruct_world w. destruct rec; [by left|]. right; left.
    exists (info_line now "Recording started. Click inside input area and type...").
    by destruct disp.
  - destruct_world w. destruct rec; [|by left]. right; left.
    exists (info_line now "Recording stopped."). by destruct disp.
  - destruct (recording (self w)) eqn:Hrec.
    + right; right; left. exists now, ev. split; [done|]. split; [done|].
      destruct_world w. cbn [self recording] in Hrec. subst. split; [done|].
      destruct disp as [txt st]. run_callback. unfold display_line.
      by rewrite !append_assoc.
    + left. unfold after. by rewrite on_key_press_closed.
  - destruct (save_log_self answer now1 now2 w) as [->| ->]; [by left|].
    right; left. eexists. destruct (displayed_fields
      (info_line now2 ("Saved " +:+ Py.str_of_nat (length (events (self w)))
                       +:+ " events to " +:+ Py.basename answer)) (self w))
      as (_ & He & _ & Hd).
    split; [exact He | exact Hd].
  - left. by destruct (open_log_file_frame answer w) as [-> _].
  - destruct_world w. destruct disp as [txt st].
    destruct answer.
    + destruct evs as [|e evs]; [destruct txt as [|c txt]|].
      * by left.
      * right; right; right. split; [done|]. split; [done|].
        by exists (info_line now "Cleared recorded events.").
      * right; right; right. split; [done|]. split; [done|].
        by exists (info_line now "Cleared recorded events.").
    + left. by destruct evs, txt.
  - left. destruct_world w. by destruct evs, answer.
  - by left.
Qed.

(** ** Invariants of the event loop *)

Lemma mainloop_invariant (P : World → Prop) :
  (∀ st w, P w → P (after (dispatch st) w)) →
  ∀ steps w, P w → P (after (mainloop steps) w).
Proof.
  intros Hstep steps. induction steps as [|st rest IH]; intros w Hw; [exact Hw|].
  destruct (alive (self w)) eqn:Hal.
  - rewrite mainloop_after_cons by done. by apply IH, Hstep.
  - unfold after. by rewrite mainloop_closed.
Qed.

Lemma reachable_invariant (P : World → Prop) :
  (∀ fs ft, P (startup fs ft)) →
  (∀ st w, P w → P (after (dispatch st) w)) →
  ∀ w, reachable w → P w.
Proof.
  intros Hinit Hstep w Hw. induction Hw as [fs ft|st w _ IH _]; [apply Hinit|].
  by apply Hstep.
Qed.

Lemma reachable_example :
  reachable (after (dispatch (KeyPress "t1" (mkKeyEvent "a" "a")))
               (after (dispatch (StartRecording "t0")) (startup ∅ None))).
Proof.
  apply reachable_step; [|reflexivity].
  apply reachable_step; [|reflexivity].
  apply reachable_startup.
Qed.

Lemma dispatch_read_only (st : Step) (w : World) :
  text_state (log_display (self w)) = disabled →
  text_state (log_display (self (after (dispatch st) w))) = disabled.
Proof.
  intros H.
  destruct (dispatch_log_display st w)
    as [[_ ->]|[(line & _ & ->)|[(now & ev & _ & _ & _ & ->)|(_ & _ & line & ->)]]];
    done.
Qed.

(** X1: the Display Panel is read-only whenever the event loop is idle:
    every callback that writes to it re-enables it only for the write, so
    in every session the loop reaches the widget is disabled. *)
Theorem log_display_read_only (w : World) :
  reachable w → text_state (log_display (self w)) = disabled.
Proof.
  revert w. apply reachable_invariant; [done|]. apply dispatch_read_only.
Qed.

Lemma log_display_read_only_witness :
  text_state (log_display (self
    (after (dispatch (KeyPress "t1" (mkKeyEvent "a" "a")))
       (after (dispatch (StartRecording "t0")) (startup ∅ None))))) = disabled.
Proof. apply log_display_read_only. exact reachable_example. Defined.

Lemma count_newlines_line (txt line : string) :
  count_newlines (txt +:+ line +:+ Py.NL) = count_newlines txt + count_newlines line + 1.
Proof. rewrite !count_newlines_app. simpl. lia. Qed.

Lemma dispatch_lines (st : Step) (w : World) :
  length (events (self w)) ≤ count_newlines (display w) →
  length (events (self (after (dispatch st) w)))
  ≤ count_newlines (display (after (dispatch st) w)).
Proof.
  unfold display. intros H.
  destruct (dispatch_log_display st w)
    as [[-> ->]|[(line & -> & ->)|[(now & ev & _ & _ & -> & ->)|(_ & -> & line & ->)]]];
    cbn [content].
  - done.
  - rewrite count_newlines_line. lia.
  - rewrite count_newlines_line, length_app. cbn [length]. lia.
  - cbn [length]. lia.
Qed.

(** X2: in every session the event loop reaches, the Display Panel has at
    least as many lines as the Event Log has records; so an empty Display
    Panel means an empty Event Log, and the test of [clear_events] comes
    down to the Display Panel being empty. *)
Theorem display_covers_events (w : World) :
  reachable w →
  length (events (self w)) ≤ count_newlines (display w)
  ∧ (display w = EmptyString → events (self w) = [])
  ∧ (negb (Py.truthy_list (events (self w))) && Tk.is_blank (log_display (self w))
     = Tk.is_blank (log_display (self w))).
Proof.
  intros Hw.
  assert (H : length (events (self w)) ≤ count_newlines (display w)).
  { revert w Hw. apply reachable_invariant; [done|]. apply dispatch_lines. }
  assert (H0 : display w = EmptyString → events (self w) = []).
  { intros Hd. rewrite Hd in H. cbn in H. destruct (events (self w)); [done|].
    cbn in H. lia. }
  split; [exact H|]. split; [exact H0|].
  unfold Tk.is_blank. unfold display in H0.
  destruct (content (log_display (self w))) as [|c txt].
  - by rewrite H0.
  - cbn. by rewrite andb_false_r.
Qed.

Lemma display_covers_events_witness :
  length (events (self
    (after (dispatch (KeyPress "t1" (mkKeyEvent "a" "a")))
       (after (dispatch (StartRecording "t0")) (startup ∅ None)))))
  ≤ count_newlines (display
    (after (dispatch (KeyPress "t1" (mkKeyEvent "a" "a")))
       (after (dispatch (StartRecording "t0")) (startup ∅ None)))).
Proof. apply display_covers_events. exact reachable_example. Defined.

Lemma dispatch_display_continues (st : Step) (w : World) :
  is_confirmed_clear st = false →
  continues (display w) (display (after (dispatch st) w)).
Proof.
  unfold display. intros Hst.
  destruct (dispatch_log_display st w)
    as [[_ ->]|[(line & _ & ->)|[(now & ev & _ & _ & _ & ->)|(Hc & _)]]];
    cbn [content].
  - apply continues_refl.
  - apply continues_app.
  - apply continues_app.
  - congruence.
Qed.

(** X3: the Display Panel is append-only: over any run of the event loop
    without a confirmed Clear, what it showed before is still the
    beginning of what it shows after. *)
Theorem display_append_only (steps : list Step) (w : World) :
  Forall (λ st, is_confirmed_clear st = false) steps →
  continues (display w) (display (after (mainloop steps) w)).
Proof.
  intros Hsteps. revert w. induction Hsteps as [|st rest Hst _ IH]; intros w.
  - apply continues_refl.
  - destruct (alive (self w)) eqn:Hal.
    + rewrite mainloop_after_cons by done.
      eapply continues_trans; [by apply dispatch_display_continues | apply IH].
    + unfold after. rewrite mainloop_closed by done. apply continues_refl.
Qed.

Lemma display_append_only_witness :
  continues (display (after (start_recording "t0") (startup ∅ None)))
    (display (after (mainloop [KeyPress "t1" (mkKeyEvent "a" "a");
                               StopRecording "t2";
                               ClearEvents false "t3"])
                (after (start_recording "t0") (startup ∅ None)))).
Proof. apply display_append_only. repeat constructor. Defined.

(** ** The Event Log as a function of the steps *)

Lemma dispatch_log_step (st : Step) (w : World) :
  let '(go, flag', log') := log_step st (recording (self w)) (events (self w)) in
  recording (self (after (dispatch st) w)) = flag'
  ∧ events (self (after (dispatch st) w)) = log'
  ∧ alive (self (after (dispatch st) w)) = (if go then alive (self w) else false).
Proof.
  destruct st as [now|now|now ev|answer now1 now2|answer|answer now|answer|fs' ft'];
    cbn [dispatch log_step].
  - destruct_world w. by destruct rec.
  - destruct_world w. by destruct rec.
  - destruct_world w. by destruct rec.
  - destruct (save_log_self answer now1 now2 w) as [->| ->]; [done|].
    by destruct (self w).
  - by destruct (open_log_file_frame answer w) as [-> _].
  - destruct_world w. destruct disp as [txt st].
    destruct answer; [|by destruct evs, txt].
    by destruct evs, txt.
  - destruct_world w. by destruct evs, answer.
  - done.
Qed.

(** X4: the Event Log at the end of a run of the event loop is a function
    of the steps alone: it holds, in order, the key events that arrived
    while the flag set by start and stop was true, since the last
    confirmed Clear, up to the close that ended the loop; saving, opening,
    declined questions and the surroundings have no part in it. *)
Theorem event_log_is_log_of (steps : list Step) (w : World) :
  alive (self w) = true →
  events (self (after (mainloop steps) w))
  = log_of steps (recording (self w)) (events (self w)).
Proof.
  revert w. induction steps as [|st rest IH]; intros w Hal; [done|].
  rewrite mainloop_after_cons by done. cbn [log_of].
  pose proof (dispatch_log_step st w) as Hst.
  destruct (log_step st (recording (self w)) (events (self w))) as [[go flag'] log'].
  destruct Hst as (Hrec & Hev & Halive). destruct go.
  - rewrite IH by congruence. by rewrite Hrec, Hev.
  - unfold after at 1. by rewrite mainloop_closed.
Qed.

Lemma event_log_is_log_of_witness :
  events (self (after (mainloop [KeyPress "t0" (mkKeyEvent "x" "x");
                                 StartRecording "t1";
                                 KeyPress "t2" (mkKeyEvent "a" "a");
                                 SaveLog EmptyString "t3" "t4";
                                 StopRecording "t5";
                                 KeyPress "t6" (mkKeyEvent "b" "b")])
                  (startup ∅ None)))
  = [("t2Z", "a", "a")].
Proof.
  rewrite (event_log_is_log_of _ (startup ∅ None)) by reflexivity.
  reflexivity.
Defined.

(** ** Failures stay inside the callbacks *)

Lemma save_log_result (answer now1 now2 : string) (w : World) :
  result_of (save_log answer now1 now2 w) = Ok tt.
Proof.
  destruct w as [s fs ft].
  destruct (events s) as [|ev evs] eqn:Hevs.
  { by rewrite save_log_no_events. }
  destruct answer as [|c answer].
  { destruct s. cbn in Hevs. subst. reflexivity. }
  destruct (save_log_run (String c answer) now1 now2 (ev :: evs) fs ft)
    as (r & fs' & ft' & _ & _ & Hrun); [done..|].
  rewrite (Hrun s Hevs). by destruct r as [[]|e].
Qed.

Lemma open_log_file_result (answer : string) (w : World) :
  result_of (open_log_file answer w) = Ok tt.
Proof.
  destruct w as [s fs ft]. destruct answer as [|c answer]; [done|].
  unfold open_log_file. rewrite bind_run, askopenfilename_run.
  cbv beta iota zeta. cbn [Py.truthy_str negb].
  cbv [try_except with_file open_read f_read f_close try_finally file_op get_files
       mbind M_bind mret M_ret mthrow M_throw emit showerror result_of
       self files fault fst snd].
  destruct ft as [[[|[|[|n]]] e]|]; destruct (fs !! String c answer); done.
Qed.

(** X5: no callback lets an exception out: whatever the files hold and
    whichever file operation fails, the callback returns normally, so the
    event loop never has an escaped exception to report. *)
Theorem callbacks_never_raise (st : Step) (w : World) :
  result_of (dispatch st w) = Ok tt
  ∧ try_except (dispatch st) (λ _, mret tt) w = dispatch st w.
Proof.
  assert (H : result_of (dispatch st w) = Ok tt).
  { destruct st as [now|now|now ev|answer now1 now2|answer|answer now|answer|fs' ft'];
      cbn [dispatch].
    - destruct_world w. by destruct rec.
    - destruct_world w. by destruct rec.
    - destruct_world w. by destruct rec.
    - apply save_log_result.
    - apply open_log_file_result.
    - destruct_world w. destruct disp as [txt st]. by destruct answer, evs, txt.
    - destruct_world w. by destruct evs, answer.
    - done. }
  split; [exact H|]. unfold try_except, result_of in *.
  destruct (dispatch st w) as [[[[]|e] w1] t1]; [done | discriminate H].
Qed.

(** ** What happens to the files *)

Lemma files_kept_refl fs : files_kept fs fs.
Proof. intros p. split; [done | apply continues_refl]. Qed.

Lemma files_kept_trans fs1 fs2 fs3 :
  files_kept fs1 fs2 → files_kept fs2 fs3 → files_kept fs1 fs3.
Proof.
  intros H12 H23 p. destruct (H12 p) as [Ha Hb], (H23 p) as [Hc Hd].
  split; [auto | by eapply continues_trans].
Qed.

Lemma files_kept_touch path fs : files_kept fs (touch path fs).
Proof.
  intros p. unfold touch. destruct (decide (p = path)) as [->|Hne].
  - split; [by rewrite lookup_insert_eq|].
    unfold file_text at 2. rewrite lookup_insert_eq. apply continues_refl.
  - unfold file_text. rewrite lookup_insert_ne by done.
    split; [done | apply continues_refl].
Qed.

Lemma files_kept_append_to path data fs : files_kept fs (append_to path data fs).
Proof.
  intros p. unfold append_to. destruct (decide (p = path)) as [->|Hne].
  - split; [by rewrite lookup_insert_eq|].
    unfold file_text at 2. rewrite lookup_insert_eq. apply continues_app.
  - unfold file_text. rewrite lookup_insert_ne by done.
    split; [done | apply continues_refl].
Qed.

Lemma keeps_ret {A} (a : A) : keeps_files (mret a).
Proof. intros w. apply files_kept_refl. Qed.

Lemma keeps_throw {A} (e : string) : keeps_files (mthrow e : M A).
Proof. intros w. apply files_kept_refl. Qed.

Lemma keeps_get_self : keeps_files get_self.
Proof. intros w. apply files_kept_refl. Qed.

Lemma keeps_get_files : keeps_files get_files.
Proof. intros w. apply files_kept_refl. Qed.

Lemma keeps_modify_self f : keeps_files (modify_self f).
Proof. intros w. apply files_kept_refl. Qed.

Lemma keeps_emit x : keeps_files (emit x).
Proof. intros w. apply files_kept_refl. Qed.

Lemma keeps_file_op : keeps_files file_op.
Proof. intros [s fs [[[|n] e]|]]; apply files_kept_refl. Qed.

Lemma keeps_modify_files g :
  (∀ fs, files_kept fs (g fs)) → keeps_files (modify_files g).
Proof. intros H w. apply H. Qed.

Lemma keeps_bind {A B} (m : M A) (f : A → M B) :
  keeps_files m → (∀ a, keeps_files (f a)) → keeps_files (m ≫= f).
Proof.
  intros Hm Hf w. rewrite bind_run. specialize (Hm w). unfold world_of in *.
  destruct (m w) as [[[a|e] w1] t1]; cbn [fst snd] in *; [|done].
  specialize (Hf a w1). unfold world_of in Hf.
  destruct (f a w1) as [[r w2] t2]. cbn [fst snd] in *.
  by eapply files_kept_trans.
Qed.

Lemma keeps_try_except {A} (body : M A) (handler : string → M A) :
  keeps_files body → (∀ e, keeps_files (handler e)) →
  keeps_files (try_except body handler).
Proof.
  intros Hm Hf w. unfold try_except. specialize (Hm w). unfold world_of in *.
  destruct (body w) as [[[a|e] w1] t1]; cbn [fst snd] in *; [done|].
  specialize (Hf e w1). unfold world_of in Hf.
  destruct (handler e w1) as [[r w2] t2]. cbn [fst snd] in *.
  by eapply files_kept_trans.
Qed.

Lemma keeps_try_finally {A} (body : M A) (fin : M unit) :
  keeps_files body → keeps_files fin → keeps_files (try_finally body fin).
Proof.
  intros Hm Hf w. unfold try_finally. specialize (Hm w). unfold world_of in *.
  destruct (body w) as [[[a|e] w1] t1]; cbn [fst snd] in *;
    specialize (Hf w1); unfold world_of in Hf;
    destruct (fin w1) as [[[[]|e'] w2] t2]; cbn [fst snd] in *;
    by eapply files_kept_trans.
Qed.

Lemma keeps_for_each {A} (l : list A) (body : A → M unit) :
  (∀ x, keeps_files (body x)) → keeps_files (for_each l body).
Proof.
  intros H. induction l as [|x l IH]; [apply keeps_ret|].
  cbn [for_each]. apply keeps_bind; [apply H | by intros _].
Qed.

Ltac keeps_step :=
  first
    [ apply keeps_ret | apply keeps_throw | apply keeps_get_self
    | apply keeps_get_files | apply keeps_modify_self | apply keeps_emit
    | apply keeps_file_op
    | apply keeps_modify_files; intros ?;
      first [apply files_kept_touch | apply files_kept_append_to]
    | apply keeps_for_each; intros ?
    | apply keeps_try_except; [|intros ?]
    | apply keeps_try_finally
    | apply keeps_bind; [|intros ?] ].

Lemma keeps_save_log (answer now1 now2 : string) :
  keeps_files (save_log answer now1 now2).
Proof.
  unfold save_log, showinfo, showerror, asksaveasfilename, _append_message,
    _append_to_display, with_file, open_append, f_write, f_close.
  apply keeps_bind; [apply keeps_get_self|]. intros s.
  destruct (negb (Py.truthy_list (events s))); [apply keeps_emit|].
  apply keeps_bind; [repeat keeps_step|]. intros path.
  destruct (negb (Py.truthy_str path)); repeat keeps_step.
Qed.

Lemma dispatch_files_same (st : Step) (w : World) :
  is_save st = false → is_surroundings st = false →
  files (after (dispatch st) w) = files w.
Proof.
  destruct st as [now|now|now ev|answer now1 now2|answer|answer now|answer|fs' ft'];
    try done; intros _ _; cbn [dispatch].
  - destruct_world w. by destruct rec.
  - destruct_world w. by destruct rec.
  - destruct_world w. by destruct rec.
  - by destruct (open_log_file_frame answer w) as [_ ->].
  - destruct_world w. destruct disp as [txt st]. by destruct answer, evs, txt.
  - destruct_world w. by destruct evs, answer.
Qed.

(** X6: keystrokes reach the disk through Save Log only: a run of the
    event loop in which Save Log is not used, and in which nothing else
    on the machine touches the files, leaves every file exactly as it
    was, whatever was typed, cleared, opened or closed. *)
Theorem only_save_writes (steps : list Step) (w : World) :
  Forall (λ st, is_save st = false ∧ is_surroundings st = false) steps →
  files (after (mainloop steps) w) = files w.
Proof.
  intros Hsteps. revert w. induction Hsteps as [|st rest [Hs Hn] _ IH]; intros w; [done|].
  destruct (alive (self w)) eqn:Hal.
  - rewrite mainloop_after_cons by done. rewrite IH. by apply dispatch_files_same.
  - unfold after. by rewrite mainloop_closed.
Qed.

Lemma only_save_writes_witness :
  files (after (mainloop [StartRecording "t0";
                          KeyPress "t1" (mkKeyEvent "a" "a");
                          OpenLogFile "old.txt";
                          ClearEvents true "t2";
                          OnClose true])
           (startup {["old.txt" := "kept"]} None))
  = files (startup {["old.txt" := "kept"]} None).
Proof. apply only_save_writes. repeat constructor. Defined.

(** X7: the program never destroys file content: over any run of the
    event loop, with saves to any paths and with file operations failing
    at any point, no file disappears and every file still begins with
    what it held before. *)
Theorem files_never_lost (steps : list Step) (w : World) :
  Forall (λ st, is_surroundings st = false) steps →
  files_kept (files w) (files (after (mainloop steps) w)).
Proof.
  intros Hsteps. revert w. induction Hsteps as [|st rest Hn _ IH]; intros w.
  - apply files_kept_refl.
  - destruct (alive (self w)) eqn:Hal.
    + rewrite mainloop_after_cons by done.
      eapply files_kept_trans; [|apply IH].
      destruct (is_save st) eqn:Hs.
      * destruct st; try done. apply keeps_save_log.
      * rewrite dispatch_files_same by done. apply files_kept_refl.
    + unfold after. rewrite mainloop_closed by done. apply files_kept_refl.
Qed.

Lemma files_never_lost_witness :
  files_kept (files (startup {["out.txt" := "kept"]} (Some (2, "disk full"))))
    (files (after (mainloop [StartRecording "t0";
                             KeyPress "t1" (mkKeyEvent "a" "a");
                             SaveLog "out.txt" "t2" "t3"])
              (startup {["out.txt" := "kept"]} (Some (2, "disk full"))))).
Proof. apply files_never_lost. repeat constructor. Defined.

(** ** Opening a log file *)

Lemma universal_newlines_plain (s : string) :
  Py.mem_char Py.CR_char s = false → Py.universal_newlines s = s.
Proof.
  induction s as [|c s IH]; [done|]. cbn [Py.mem_char Py.universal_newlines].
  rewrite (Ascii.eqb_sym Py.CR_char c).
  destruct (Ascii.eqb c Py.CR_char); [done|]. cbn [orb]. intros H. by rewrite IH.
Qed.

Lemma open_log_file_shows (path txt : string) (w : World) :
  path ≠ EmptyString → files w !! path = Some txt → survives 3 (fault w) →
  open_log_file path w
  = (Ok tt, mkWorld (self w) (files w) (after_ops 3 (fault w)),
     [AskOpenFilename "Open log file..." path;
      Toplevel ("Viewing: " +:+ Py.basename path) (Py.universal_newlines txt)]).
Proof.
  destruct w as [s fs ft]. cbn [self files fault]. intros Hp Hfile Hsurv.
  destruct path as [|c path]; [done|].
  unfold open_log_file. rewrite bind_run, askopenfilename_run.
  cbv beta iota zeta. cbn [Py.truthy_str negb].
  cbv [try_except with_file open_read f_read f_close try_finally file_op get_files
       mbind M_bind mret M_ret mthrow M_throw emit showerror file_text
       self files fault fst snd].
  destruct ft as [[[|[|[|n]]] e]|]; cbn in Hsurv; try lia;
    repeat (rewrite Hfile; cbv beta iota); cbn [after_ops Nat.sub];
    rewrite ?Nat.sub_0_r; reflexivity.
Qed.

(** X8: opening an existing file, with no failing file operation, shows
    its text in a viewer window titled [Viewing:] and the base name of
    the path, with the line ends as reading in text mode gives them
    (carriage return with newline, and carriage return alone, shown as
    newline); a text without carriage return is shown verbatim.  The
    session and the files are as before. *)
Theorem open_log_file_view (path txt : string) (w : World) :
  path ≠ EmptyString → files w !! path = Some txt → survives 3 (fault w) →
  trace_of (open_log_file path w)
  = [AskOpenFilename "Open log file..." path;
     Toplevel ("Viewing: " +:+ Py.basename path) (Py.universal_newlines txt)]
  ∧ (Py.mem_char Py.CR_char txt = false →
     trace_of (open_log_file path w)
     = [AskOpenFilename "Open log file..." path;
        Toplevel ("Viewing: " +:+ Py.basename path) txt])
  ∧ self (after (open_log_file path) w) = self w
  ∧ files (after (open_log_file path) w) = files w.
Proof.
  intros Hp Hfile Hsurv. unfold after.
  rewrite (open_log_file_shows path txt w Hp Hfile Hsurv).
  split; [done|]. split; [|done]. intros Hcr.
  by rewrite (universal_newlines_plain txt Hcr).
Qed.

Lemma open_log_file_view_witness :
  trace_of (open_log_file "/tmp/logs/out.txt"
              (startup {["/tmp/logs/out.txt" := "a" +:+ Py.CR +:+ Py.NL +:+ "b" +:+ Py.CR]} None))
  = [AskOpenFilename "Open log file..." "/tmp/logs/out.txt";
     Toplevel "Viewing: out.txt" ("a" +:+ Py.NL +:+ "b" +:+ Py.NL)].
Proof.
  apply (open_log_file_view "/tmp/logs/out.txt"
           ("a" +:+ Py.CR +:+ Py.NL +:+ "b" +:+ Py.CR)
           (startup {["/tmp/logs/out.txt" := "a" +:+ Py.CR +:+ Py.NL +:+ "b" +:+ Py.CR]} None)).
  - discriminate.
  - vm_compute. reflexivity.
  - exact I.
Defined.

(** X9: when the file cannot be read, [open_log_file] shows the error
    dialog [Failed to open file:] with the text of the exception and
    opens no viewer: a path that names no file gives the missing-file
    error, which names the path as [repr] writes it, and a file
    operation that fails on an existing file gives the text of its
    exception. *)
Theorem open_log_file_failure (path : string) (w : World) :
  path ≠ EmptyString →
  (files w !! path = None → survives 1 (fault w) →
     trace_of (open_log_file path w)
     = [AskOpenFilename "Open log file..." path;
        ShowError "Open Log"
          ("Failed to open file:" +:+ Py.NL +:+
           "[Errno 2] No such file or directory: " +:+ Py.repr path)])
  ∧ (∀ n e, fault w = Some (n, e) → n < 3 → is_Some (files w !! path) →
     trace_of (open_log_file path w)
     = [AskOpenFilename "Open log file..." path;
        ShowError "Open Log" ("Failed to open file:" +:+ Py.NL +:+ e)]).
Proof.
  destruct w as [s fs ft]. cbn [self files fault]. intros Hp.
  destruct path as [|c path]; [done|].
  unfold open_log_file. rewrite bind_run, askopenfilename_run.
  cbv beta iota zeta. cbn [Py.truthy_str negb].
  cbv [try_except with_file open_read f_read f_close try_finally file_op get_files
       mbind M_bind mret M_ret mthrow M_throw emit showerror file_text trace_of
       Py.file_not_found self files fault fst snd].
  split.
  - intros Hnone Hsurv.
    destruct ft as [[[|n] e]|]; cbn in Hsurv; try lia; by rewrite Hnone.
  - intros n e -> Hlt [txt Hfile].
    destruct n as [|[|[|n]]]; try lia;
      repeat (rewrite Hfile; cbv beta iota); reflexivity.
Qed.

(** The quotes [repr] chooses. *)
Example repr_plain : Py.repr "gone.txt" = "'gone.txt'".
Proof. reflexivity. Qed.

Example repr_apostrophe :
  Py.repr "it's.txt"
  = String Py.dquote ("it's.txt" +:+ String Py.dquote EmptyString).
Proof. reflexivity. Qed.

Example repr_escapes :
  Py.repr ("a" +:+ Py.NL +:+ String Py.backslash (String (Ascii.ascii_of_nat 7) EmptyString))
  = "'a\n\\\x07'".
Proof. reflexivity. Qed.

Lemma open_log_file_failure_witness :
  trace_of (open_log_file "it's gone.txt" (startup ∅ None))
  = [AskOpenFilename "Open log file..." "it's gone.txt";
     ShowError "Open Log"
       ("Failed to open file:" +:+ Py.NL +:+
        "[Errno 2] No such file or directory: " +:+
        String Py.dquote ("it's gone.txt" +:+ String Py.dquote EmptyString))].
Proof.
  destruct (open_log_file_failure "it's gone.txt" (startup ∅ None)) as [Hmissing _].
  - discriminate.
  - apply Hmissing; [reflexivity | exact I].
Defined.

(** X10: Open is view-only: whether the dialog is cancelled, the file is
    shown or reading fails, [self] (Event Log, Display Panel, flag,
    buttons) and the files are unchanged; a cancelled dialog changes
    nothing at all and shows nothing more. *)
Theorem open_log_file_view_only (answer : string) (w : World) :
  self (after (open_log_file answer) w) = self w
  ∧ files (after (open_log_file answer) w) = files w
  ∧ (answer = EmptyString →
     open_log_file answer w = (Ok tt, w, [AskOpenFilename "Open log file..." answer])).
Proof.
  destruct (open_log_file_frame answer w) as [Hs Hf].
  split; [exact Hs|]. split; [exact Hf|]. by intros ->.
Qed.

Lemma open_log_file_view_only_witness :
  open_log_file EmptyString (startup ∅ (Some (0, "disk full")))
  = (Ok tt, startup ∅ (Some (0, "disk full")),
     [AskOpenFilename "Open log file..." EmptyString]).
Proof.
  by apply (open_log_file_view_only EmptyString (startup ∅ (Some (0, "disk full")))).
Defined.

(** ** Saving, composed *)

Lemma save_log_done (answer now1 now2 : string) (w : World) :
  events (self w) ≠ [] → answer ≠ EmptyString →
  survives (save_ops (length (events (self w)))) (fault w) →
  after (save_log answer now1 now2) w
  = mkWorld
      (displayed (info_line now2
         ("Saved " +:+ Py.str_of_nat (length (events (self w))) +:+ " events to "
          +:+ Py.basename answer)) (self w))
      (<[answer := file_text (files w) answer +:+ saved_block now1 (events (self w))]>
         (files w))
      (after_ops (save_ops (length (events (self w)))) (fault w)).
Proof.
  destruct w as [s fs ft]. cbn [self files fault]. intros Hevs Hans Hsurv.
  destruct (save_log_run answer now1 now2 (events s) fs ft Hevs Hans)
    as (r & fs' & ft' & Hok & _ & Hrun).
  destruct (Hok Hsurv) as (-> & -> & ->). unfold after. by rewrite (Hrun s eq_refl).
Qed.

(** X11: what was saved can be read back: after a save that went
    through, opening the same path shows, in the viewer window, what the
    file held before followed by the block of that save, with the line
    ends as reading in text mode gives them; when neither holds a
    carriage return, the viewer shows exactly that text. *)
Theorem save_then_open (path now1 now2 : string) (w : World) :
  events (self w) ≠ [] → path ≠ EmptyString →
  survives (save_ops (length (events (self w))) + 3) (fault w) →
  trace_of (open_log_file path (after (save_log path now1 now2) w))
  = [AskOpenFilename "Open log file..." path;
     Toplevel ("Viewing: " +:+ Py.basename path)
       (Py.universal_newlines
          (file_text (files w) path +:+ saved_block now1 (events (self w))))]
  ∧ (Py.mem_char Py.CR_char
       (file_text (files w) path +:+ saved_block now1 (events (self w))) = false →
     trace_of (open_log_file path (after (save_log path now1 now2) w))
     = [AskOpenFilename "Open log file..." path;
        Toplevel ("Viewing: " +:+ Py.basename path)
          (file_text (files w) path +:+ saved_block now1 (events (self w)))]).
Proof.
  intros Hevs Hp [Hs1 Hs2]%survives_add.
  rewrite (save_log_done path now1 now2 w Hevs Hp Hs1).
  erewrite open_log_file_shows; [| done | | done].
  - split; [done|]. intros Hcr. by rewrite (universal_newlines_plain _ Hcr).
  - cbn [files]. apply lookup_insert_eq.
Qed.

Lemma save_then_open_witness :
  let w := mkWorld (set_events [("t1Z", "Return", Py.CR)] init) ∅ None in
  trace_of (open_log_file "out.txt" (after (save_log "out.txt" "t4" "t5") w))
  = [AskOpenFilename "Open log file..." "out.txt";
     Toplevel ("Viewing: " +:+ Py.basename "out.txt")
       (Py.universal_newlines
          (file_text (files w) "out.txt" +:+ saved_block "t4" (events (self w))))].
Proof.
  intros w. apply (save_then_open "out.txt" "t4" "t5" w).
  - discriminate.
  - discriminate.
  - exact I.
Defined.

Example save_then_open_carriage_return :
  Py.universal_newlines (saved_block "t4" [("t1Z", "Return", Py.CR)])
  = "# Key event log saved: t4Z" +:+ Py.NL
    +:+ "t1Z" +:+ Py.TAB +:+ "Return" +:+ Py.TAB +:+ Py.NL
    +:+ Py.NL.
Proof. reflexivity. Qed.

(** X12: the Event Log is not cleared by saving, so saves accumulate:
    two saves in a row to the same path leave the file holding what it
    held before, then the block of the first save, then the block of the
    second, both listing the same records. *)
Theorem save_twice_accumulates (path now1 now2 now3 now4 : string) (w : World) :
  events (self w) ≠ [] → path ≠ EmptyString →
  survives (save_ops (length (events (self w)))
            + save_ops (length (events (self w)))) (fault w) →
  let w2 := after (save_log path now3 now4) (after (save_log path now1 now2) w) in
  file_text (files w2) path
  = file_text (files w) path
    +:+ saved_block now1 (events (self w))
    +:+ saved_block now3 (events (self w))
  ∧ events (self w2) = events (self w).
Proof.
  intros Hevs Hp [Hs1 Hs2]%survives_add. cbv zeta.
  rewrite (save_log_done path now1 now2 w Hevs Hp Hs1).
  destruct (displayed_fields
    (info_line now2 ("Saved " +:+ Py.str_of_nat (length (events (self w)))
                     +:+ " events to " +:+ Py.basename path)) (self w))
    as (_ & He & _ & _).
  rewrite save_log_done; cbn [self files fault]; rewrite ?He; [|done..].
  cbn [self files]. split.
  - unfold file_text at 1 2. rewrite !lookup_insert_eq. cbn [default]. cbv [id].
    by rewrite append_assoc.
  - destruct (displayed_fields
      (info_line now4 ("Saved " +:+ Py.str_of_nat (length (events (self w)))
                       +:+ " events to " +:+ Py.basename path))
      (displayed (info_line now2 ("Saved " +:+ Py.str_of_nat (length (events (self w)))
                       +:+ " events to " +:+ Py.basename path)) (self w)))
      as (_ & He' & _ & _).
    by rewrite He', He.
Qed.

Lemma save_twice_accumulates_witness :
  let w := mkWorld (set_events [("t1Z", "a", "a")] init) ∅ None in
  file_text (files (after (save_log "out.txt" "t6" "t7")
                      (after (save_log "out.txt" "t4" "t5") w))) "out.txt"
  = file_text (files w) "out.txt"
    +:+ saved_block "t4" (events (self w))
    +:+ saved_block "t6" (events (self w)).
Proof.
  intros w. apply (save_twice_accumulates "out.txt" "t4" "t5" "t6" "t7" w).
  - discriminate.
  - discriminate.
  - exact I.
Defined.

Lemma join_count (l : list string) :
  count_newlines (join l) = foldr (λ s n, count_newlines s + n) 0 l.
Proof.
  unfold join. induction l as [|s l IH]; [done|]. cbn [foldr].
  by rewrite count_newlines_app, IH.
Qed.

(** X13: one line per event in the file: when no timestamp, key name or
    [char_repr] of the Event Log contains a newline, a save that goes
    through adds exactly as many lines to the file as there are records,
    plus the header line and the blank line. *)
Theorem save_adds_lines (path now1 now2 : string) (w : World) :
  events (self w) ≠ [] → path ≠ EmptyString →
  survives (save_ops (length (events (self w)))) (fault w) →
  count_newlines now1 = 0 →
  Forall (λ r : EventRecord,
            count_newlines r.1.1 = 0 ∧ count_newlines r.1.2 = 0
            ∧ count_newlines r.2 = 0) (events (self w)) →
  count_newlines (file_text (files (after (save_log path now1 now2) w)) path)
  = count_newlines (file_text (files w) path) + length (events (self w)) + 2.
Proof.
  intros Hevs Hp Hsurv Hnow Hall.
  rewrite (save_log_done path now1 now2 w Hevs Hp Hsurv). cbn [files].
  unfold file_text at 1. rewrite lookup_insert_eq. cbn [default]. cbv [id].
  unfold saved_block. rewrite !count_newlines_app, join_count, Hnow.
  assert (Hlines : foldr (λ s n, count_newlines s + n) 0
            (map (λ '(t, k, c), t +:+ Py.TAB +:+ k +:+ Py.TAB +:+ c +:+ Py.NL)
               (events (self w)))
          = length (events (self w))).
  { clear Hevs Hsurv. induction Hall as [|[[t k] c] l (Ht & Hk & Hc) _ IH]; [done|].
    cbn [map foldr length fst snd] in *. rewrite IH.
    rewrite !count_newlines_app, Ht, Hk, Hc. simpl. lia. }
  rewrite Hlines. simpl. lia.
Qed.

Lemma save_adds_lines_witness :
  let w := mkWorld (set_events [("t1Z", "a", "a"); ("t2Z", "b", "b")] init) ∅ None in
  count_newlines (file_text (files (after (save_log "out.txt" "t4" "t5") w)) "out.txt")
  = count_newlines (file_text (files w) "out.txt") + length (events (self w)) + 2.
Proof.
  intros w. apply (save_adds_lines "out.txt" "t4" "t5" w).
  - discriminate.
  - discriminate.
  - exact I.
  - reflexivity.
  - repeat constructor.
Defined.

(** ** Start, stop and clear, composed *)

(** X14: start and then stop bring the Capture Gate back: from a session
    that is not recording, the flag is false again, Start is enabled,
    Stop is disabled, the status reads [Recording: No] in red, the Event
    Log, the files and the window are untouched, and the Display Panel
    has gained the two info lines, in that order. *)
Theorem start_then_stop (now1 now2 : string) (w : World) :
  recording (self w) = false →
  let w2 := after (stop_recording now2) (after (start_recording now1) w) in
  recording (self w2) = false
  ∧ start_btn (self w2) = normal
  ∧ stop_btn (self w2) = disabled
  ∧ status_label (self w2) = mkLabel "Recording: No" "red"
  ∧ events (self w2) = events (self w)
  ∧ alive (self w2) = alive (self w)
  ∧ files w2 = files w
  ∧ display w2
    = display w
      +:+ info_line now1 "Recording started. Click inside input area and type..."
      +:+ Py.NL
      +:+ info_line now2 "Recording stopped." +:+ Py.NL.
Proof.
  destruct_world w. cbn [self recording]. intros ->. cbv zeta.
  destruct disp as [txt st]. repeat split.
  do 3 (run_callback; cbv [fst snd]). unfold info_line. by rewrite !append_assoc.
Qed.

Lemma start_then_stop_witness :
  status_label (self (after (stop_recording "t1")
                        (after (start_recording "t0") (startup ∅ None))))
  = mkLabel "Recording: No" "red".
Proof.
  by apply (start_then_stop "t0" "t1" (startup ∅ None)).
Defined.

Lemma clear_events_confirmed_empties (now : string) (w : World) :
  events (self (after (clear_events true now) w)) = [].
Proof.
  destruct_world w. destruct disp as [txt st]. by destruct evs, txt.
Qed.

(** X15: after a confirmed Clear there is nothing left to save: Save Log
    only shows the notice [No recorded events to save.], asks for no path
    and does no file operation. *)
Theorem clear_then_save (now answer now1 now2 : string) (w : World) :
  save_log answer now1 now2 (after (clear_events true now) w)
  = (Ok tt, after (clear_events true now) w,
     [ShowInfo "Save Log" "No recorded events to save."]).
Proof. apply save_log_no_events, clear_events_confirmed_empties. Qed.

(** ** The records of the Event Log *)

Lemma escape_newlines_nonempty (s : string) :
  s ≠ EmptyString → escape_newlines s ≠ EmptyString.
Proof.
  destruct s as [|c s]; [done|]. intros _. cbn [escape_newlines].
  by destruct (Ascii.eqb c Py.newline).
Qed.

Lemma char_repr_of_ok (now k ch : string) :
  char_repr_ok (now, k, char_repr_of ch).
Proof.
  split; [|apply char_repr_of_count]. cbn [snd]. unfold char_repr_of.
  destruct (String.eqb_spec ch EmptyString) as [->|Hne]; [done|].
  rewrite replace_newline_escape. by apply escape_newlines_nonempty.
Qed.

Lemma dispatch_char_repr_ok (st : Step) (w : World) :
  Forall char_repr_ok (events (self w)) →
  Forall char_repr_ok (events (self (after (dispatch st) w))).
Proof.
  intros H.
  destruct (dispatch_events st w) as [[_ ->]|[->|(now & ev & _ & _ & ->)]].
  - constructor.
  - done.
  - apply Forall_app. split; [done|]. constructor; [|constructor].
    apply char_repr_of_ok.
Qed.

(** X16: in every session the event loop reaches, every record of the
    Event Log has a [char_repr] that is not empty and contains no
    newline character. *)
Theorem recorded_char_repr_ok (w : World) :
  reachable w → Forall char_repr_ok (events (self w)).
Proof.
  revert w. apply reachable_invariant.
  - intros fs ft. constructor.
  - apply dispatch_char_repr_ok.
Qed.

Lemma recorded_char_repr_ok_witness :
  Forall char_repr_ok
    (events (self (after (dispatch (KeyPress "t1" (mkKeyEvent "a" "a")))
                     (after (dispatch (StartRecording "t0")) (startup ∅ None))))).
Proof. apply recorded_char_repr_ok. exact reachable_example. Defined.
